(** * BasketStats: the stat-event ledger and its reducer

    A shallow embedding of [js/app.js]: the [Store] object (session data,
    roster, ledger, reducer), the [Timer] clock string, the [StatsUtils]
    helpers and the global [addPlayer] / [adjustScore] handlers.

    Conventions of the embedding.
    - JavaScript objects that the code uses as structs are records; every
      record lives in a module named after the object it models, so the
      field names are the source's.
    - Counters are JavaScript Numbers holding integers; they are modelled
      by [Z].  From a fresh session every counter is bounded by three times
      the ledger length ([reachable_ledger_bounds]), far below 2^53, so no
      increment is ever rounded.
    - Mutation in place is explicit state passing: a function that mutates
      [this.data] takes the data and returns the new data.  A player object
      obtained with [find] is the array element itself; it is modelled by
      its index in [players] and written back at that index.
    - Readings of the environment ([Date.now()], the generated player id,
      the timer) are arguments of the function that reads them. *)

From Stdlib Require Import ZArith QArith Qabs Qround Lqa Ascii String.
From stdpp Require Import base decidable option list sorting strings pretty.

Local Open Scope Z_scope.
Local Open Scope string_scope.
Local Open Scope list_scope.

(** ** Data model *)

(** The keys of [data.teams], ['home'] and ['visitor'].  [updateStats]
    reads [player.team] with the remark that it is one of the two, and the
    handlers only ever pass one of the two, so [teams[teamKey]] is always
    one of the two team records. *)
Inductive TeamId := Home | Visitor.

#[global] Instance TeamId_eq_dec : EqDecision TeamId.
Proof. solve_decision. Defined.

Module Team.
Record t := mk {
  id : TeamId;
  name : string;
  score : Z;
  fouls : Z;
  color : option string
}.

Definition add_score (n : Z) (tm : t) : t :=
  mk (id tm) (name tm) (score tm + n) (fouls tm) (color tm).
Definition set_score (n : Z) (tm : t) : t :=
  mk (id tm) (name tm) n (fouls tm) (color tm).
Definition incr_fouls (tm : t) : t :=
  mk (id tm) (name tm) (score tm) (fouls tm + 1) (color tm).
Definition set_name (v : string) (tm : t) : t :=
  mk (id tm) v (score tm) (fouls tm) (color tm).
End Team.

Module Teams.
Record t := mk { home : Team.t; visitor : Team.t }.

(** [teams[teamKey]] *)
Definition get (ts : t) (k : TeamId) : Team.t :=
  match k with Home => home ts | Visitor => visitor ts end.

(** the object [teams[teamKey]] after [f] has mutated it *)
Definition update (k : TeamId) (f : Team.t -> Team.t) (ts : t) : t :=
  match k with
  | Home => mk (f (home ts)) (visitor ts)
  | Visitor => mk (home ts) (f (visitor ts))
  end.
End Teams.

Module Stats.
Record t := mk {
  pts : Z;
  fg2m : Z; fg2a : Z;
  fg3m : Z; fg3a : Z;
  ftm : Z; fta : Z;
  orb : Z; drb : Z;
  ast : Z; stl : Z; blk : Z; tov : Z;
  pf : Z; ofd : Z;
  time : Z
}.

(** [s.pts += n] and the increments [s.f++], one per field the reducer
    writes. *)
Definition add_pts (n : Z) (s : t) : t :=
  let 'mk p a b c d e f g h i j k l m o w := s in
  mk (p + n) a b c d e f g h i j k l m o w.
Definition incr_fg2m (s : t) : t :=
  let 'mk p a b c d e f g h i j k l m o w := s in
  mk p (a + 1) b c d e f g h i j k l m o w.
Definition incr_fg2a (s : t) : t :=
  let 'mk p a b c d e f g h i j k l m o w := s in
  mk p a (b + 1) c d e f g h i j k l m o w.
Definition incr_fg3m (s : t) : t :=
  let 'mk p a b c d e f g h i j k l m o w := s in
  mk p a b (c + 1) d e f g h i j k l m o w.
Definition incr_fg3a (s : t) : t :=
  let 'mk p a b c d e f g h i j k l m o w := s in
  mk p a b c (d + 1) e f g h i j k l m o w.
Definition incr_ftm (s : t) : t :=
  let 'mk p a b c d e f g h i j k l m o w := s in
  mk p a b c d (e + 1) f g h i j k l m o w.
Definition incr_fta (s : t) : t :=
  let 'mk p a b c d e f g h i j k l m o w := s in
  mk p a b c d e (f + 1) g h i j k l m o w.
Definition incr_orb (s : t) : t :=
  let 'mk p a b c d e f g h i j k l m o w := s in
  mk p a b c d e f (g + 1) h i j k l m o w.
Definition incr_drb (s : t) : t :=
  let 'mk p a b c d e f g h i j k l m o w := s in
  mk p a b c d e f g (h + 1) i j k l m o w.
Definition incr_ast (s : t) : t :=
  let 'mk p a b c d e f g h i j k l m o w := s in
  mk p a b c d e f g h (i + 1) j k l m o w.
Definition incr_stl (s : t) : t :=
  let 'mk p a b c d e f g h i j k l m o w := s in
  mk p a b c d e f g h i (j + 1) k l m o w.
Definition incr_blk (s : t) : t :=
  let 'mk p a b c d e f g h i j k l m o w := s in
  mk p a b c d e f g h i j (k + 1) l m o w.
Definition incr_tov (s : t) : t :=
  let 'mk p a b c d e f g h i j k l m o w := s in
  mk p a b c d e f g h i j k (l + 1) m o w.
Definition incr_pf (s : t) : t :=
  let 'mk p a b c d e f g h i j k l m o w := s in
  mk p a b c d e f g h i j k l (m + 1) o w.
Definition incr_ofd (s : t) : t :=
  let 'mk p a b c d e f g h i j k l m o w := s in
  mk p a b c d e f g h i j k l m (o + 1) w.

(** Field-wise sum, used to state what a row of the scoring table adds. *)
Definition plus (s d : t) : t :=
  mk (pts s + pts d)
     (fg2m s + fg2m d) (fg2a s + fg2a d)
     (fg3m s + fg3m d) (fg3a s + fg3a d)
     (ftm s + ftm d) (fta s + fta d)
     (orb s + orb d) (drb s + drb d)
     (ast s + ast d) (stl s + stl d) (blk s + blk d) (tov s + tov d)
     (pf s + pf d) (ofd s + ofd d)
     (time s + time d).
End Stats.

Module Player.
Record t := mk {
  id : string;
  number : string;
  name : string;
  team : TeamId;
  active : bool;
  stats : Stats.t
}.

Definition set_stats (s : Stats.t) (p : t) : t :=
  mk (id p) (number p) (name p) (team p) (active p) s.
Definition set_active (b : bool) (p : t) : t :=
  mk (id p) (number p) (name p) (team p) b (stats p).
End Player.

(** The [extraData] of a shot: the court coordinates [{x, y}] in percent. *)
Module Location.
Record t := mk { x : Q; y : Q }.
End Location.

Module LogEntry.
Record t := mk {
  id : Z;
  playerId : string;
  team : TeamId;
  action : string;
  quarter : Z;
  gameTime : string;
  xy : option Location.t
}.
End LogEntry.

Module Data.
Record t := mk {
  gameId : option Z;
  date : option string;
  teams : Teams.t;
  players : list Player.t;
  log : list LogEntry.t;
  quarter : Z;
  gameActive : bool
}.

Definition set_teams (ts : Teams.t) (d : t) : t :=
  mk (gameId d) (date d) ts (players d) (log d) (quarter d) (gameActive d).
Definition set_players (ps : list Player.t) (d : t) : t :=
  mk (gameId d) (date d) (teams d) ps (log d) (quarter d) (gameActive d).
Definition set_log (l : list LogEntry.t) (d : t) : t :=
  mk (gameId d) (date d) (teams d) (players d) l (quarter d) (gameActive d).
End Data.

(** How a call completes.  The source has no [throw] statement and defines
    no error class; the exceptions listed are the ones the specification's
    error taxonomy names, plus the [SyntaxError] of [JSON.parse], the only
    one the source catches. *)
Inductive Exception :=
| UnknownPlayerError
| InvalidRosterInputError
| CorruptSnapshotError
| SyntaxError.

Inductive Completion :=
| Normal
| Abrupt (e : Exception).

(** ** Timer *)

Module Timer.
(** [String.prototype.padStart(2, '0')] on a decimal numeral *)
Definition padStart2 (s : string) : string :=
  match String.length s with
  | O => "00"
  | S O => "0" ++ s
  | _ => s
  end.

Definition getTimeStr (totalSeconds : N) : string :=
  let m := (totalSeconds / 60)%N in
  let s := (totalSeconds mod 60)%N in
  padStart2 (pretty m) ++ ":" ++ padStart2 (pretty s).

(** The timer object.  [interval] is the handle [setInterval] returned
    last, [None] for [null]. *)
Record t := mk { totalSeconds : N; interval : option nat; isRunning : bool }.

(** The timer together with the browser's table of intervals: [live] are
    the handles whose callback still fires, [next] is the handle the next
    [setInterval] returns. *)
Record World := mkWorld { timer : t; live : list nat; next : nat }.

Definition initial : World := mkWorld (mk 600 None false) [] 0.

(** [clearInterval(h)]; clearing [null] or a dead handle does nothing. *)
Definition clearInterval (h : option nat) (l : list nat) : list nat :=
  match h with
  | Some n => filter (fun x => x <> n) l
  | None => l
  end.

Definition start (w : World) : World :=
  if isRunning (timer w) then w
  else
    mkWorld (mk (totalSeconds (timer w)) (Some (next w)) true)
      (next w :: live w) (S (next w)).

Definition stop (w : World) : World :=
  mkWorld (mk (totalSeconds (timer w)) (interval (timer w)) false)
    (clearInterval (interval (timer w)) (live w)) (next w).

Definition toggle (w : World) : World :=
  if isRunning (timer w) then stop w else start w.

(** The body of the interval callback. *)
Definition tick (w : World) : World :=
  if (0 <? totalSeconds (timer w))%N
  then
    mkWorld (mk (totalSeconds (timer w) - 1)%N (interval (timer w))
               (isRunning (timer w)))
      (live w) (next w)
  else stop w.

(** What can happen to the timer: a click on the timer button, or the
    browser firing the callback of the interval [h], which it only does
    while [h] is live. *)
Inductive Event :=
| Click
| Fire (h : nat).

Definition handle (w : World) (ev : Event) : World :=
  match ev with
  | Click => toggle w
  | Fire h => if bool_decide (h ∈ live w) then tick w else w
  end.

Definition play (w : World) (evs : list Event) : World := foldl handle w evs.

(** The decimal digit [k] as a character. *)
Definition digit (k : N) : ascii := ascii_of_N (48 + k).

(** ["MM:SS"] written digit by digit. *)
Definition clockFace (n : N) : string :=
  String (digit (n / 600))
    (String (digit ((n / 60) mod 10))
       (String ":"
          (String (digit ((n mod 60) / 10))
             (String (digit (n mod 10)) EmptyString)))).
End Timer.

(** ** Store *)

Module Store.
Import Data.

(** The object literal [Store.data] starts with. *)
Definition initialData : Data.t :=
  Data.mk None None
    (Teams.mk (Team.mk Home "LOCAL" 0 0 (Some "#000000"))
              (Team.mk Visitor "VISITANTE" 0 0 (Some "#000000")))
    [] [] 1 false.

Definition reset (now : Z) (iso : string) : Data.t :=
  Data.mk (Some now) (Some iso)
    (Teams.mk (Team.mk Home "LOCAL" 0 0 None)
              (Team.mk Visitor "VISITANTE" 0 0 None))
    [] [] 1 false.

Definition createEmptyStats : Stats.t :=
  Stats.mk 0 0 0 0 0 0 0 0 0 0 0 0 0 0 0 0.

(** [id] is the string the source builds from [Date.now()] and
    [Math.random()]. *)
Definition addPlayer (d : Data.t) (id number name : string)
    (teamId : TeamId) : Data.t :=
  set_players
    (players d ++ [Player.mk id number name teamId false createEmptyStats])
    d.

(** [this.data.players.find(pl => pl.id === id)]: the first player with
    that id, with its position. *)
Definition find (d : Data.t) (id : string) : option (nat * Player.t) :=
  list_find (fun pl => Player.id pl = id) (players d).

Definition togglePlayerActive (d : Data.t) (id : string) : Data.t :=
  match find d id with
  | Some (i, p) =>
      set_players
        (<[i := Player.set_active (negb (Player.active p)) p]> (players d)) d
  | None => d
  end.

(** The reducer.  It mutates [player.stats] and [this.data.teams[teamKey]];
    it returns both objects after the mutation. *)
Definition updateStats (teams : Teams.t) (player : Player.t)
    (action : string) : Player.t * Teams.t :=
  let s := Player.stats player in
  let teamKey := Player.team player in
  let upd (s' : Stats.t) := Player.set_stats s' player in
  if decide (action = "fg2m") then
    (upd (Stats.add_pts 2 (Stats.incr_fg2a (Stats.incr_fg2m s))),
     Teams.update teamKey (Team.add_score 2) teams)
  else if decide (action = "fg2a") then
    (upd (Stats.incr_fg2a s), teams)
  else if decide (action = "fg3m") then
    (upd (Stats.add_pts 3 (Stats.incr_fg3a (Stats.incr_fg3m s))),
     Teams.update teamKey (Team.add_score 3) teams)
  else if decide (action = "fg3a") then
    (upd (Stats.incr_fg3a s), teams)
  else if decide (action = "ftm") then
    (upd (Stats.add_pts 1 (Stats.incr_fta (Stats.incr_ftm s))),
     Teams.update teamKey (Team.add_score 1) teams)
  else if decide (action = "fta") then
    (upd (Stats.incr_fta s), teams)
  else if decide (action = "orb") then (upd (Stats.incr_orb s), teams)
  else if decide (action = "drb") then (upd (Stats.incr_drb s), teams)
  else if decide (action = "ast") then (upd (Stats.incr_ast s), teams)
  else if decide (action = "stl") then (upd (Stats.incr_stl s), teams)
  else if decide (action = "blk") then (upd (Stats.incr_blk s), teams)
  else if decide (action = "tov") then (upd (Stats.incr_tov s), teams)
  else if decide (action = "pf") then
    (upd (Stats.incr_pf s), Teams.update teamKey Team.incr_fouls teams)
  else if decide (action = "ofd") then (upd (Stats.incr_ofd s), teams)
  else (player, teams).

(** [now] is [Date.now()], [totalSeconds] the timer's field read by
    [Timer.getTimeStr()], [extraData] the optional shot coordinates. *)
Definition recordAction (d : Data.t) (now : Z) (totalSeconds : N)
    (playerId actionType : string) (extraData : option Location.t)
    : Data.t * Completion :=
  match find d playerId with
  | None => (d, Normal)
  | Some (i, p) =>
      let logEntry :=
        LogEntry.mk now playerId (Player.team p) actionType (quarter d)
          (Timer.getTimeStr totalSeconds) extraData in
      let d1 := set_log (log d ++ [logEntry]) d in
      let '(p', teams') := updateStats (teams d1) p actionType in
      (set_teams teams' (set_players (<[i := p']> (players d1)) d1), Normal)
  end.
End Store.

(** ** Global handlers *)

Module Window.
Import Data.

(** [if (x)] on a string read from an input field: the empty string is the
    only falsy one. *)
Definition truthy (s : string) : bool :=
  if decide (s = "") then false else true.

(** The team chosen in the dialog: ['home'] unless a radio is checked; the
    loop keeps the value of the last checked one. *)
Definition checkedTeam (teamRadios : list (bool * TeamId)) : TeamId :=
  foldl (fun teamId (r : bool * TeamId) => if r.1 then r.2 else teamId)
    Home teamRadios.

(** [window.addPlayer]: [num] and [name] are the values of the two input
    fields, [teamRadios] the radio buttons (checked, value), [id] the
    id [Store.addPlayer] generates. *)
Definition addPlayer (d : Data.t) (num name : string)
    (teamRadios : list (bool * TeamId)) (id : string) : Data.t * Completion :=
  let teamId := checkedTeam teamRadios in
  if truthy num && truthy name
  then (Store.addPlayer d id num name teamId, Normal)
  else (d, Normal).

(** [window.adjustScore]; the guard [if (Store.data.teams[team])] always
    holds for a key of [teams]. *)
Definition adjustScore (d : Data.t) (team : TeamId) (amount : Z) : Data.t :=
  let ts := Teams.update team (Team.add_score amount) (teams d) in
  let ts :=
    if decide (Team.score (Teams.get ts team) < 0)
    then Teams.update team (Team.set_score 0) ts
    else ts in
  set_teams ts d.

(** The [input] listeners of the two team-name fields. *)
Definition setTeamName (d : Data.t) (team : TeamId) (value : string) : Data.t :=
  set_teams (Teams.update team (Team.set_name value) (teams d)) d.
End Window.

(** ** UI controller: the state that decides what gets recorded *)

Module UI.
Record t := mk {
  selectedPlayerId : option string;
  activeTeamForPad : TeamId;
  activeTeamForStats : TeamId;
  pendingShotAction : option string
}.

Definition initial : t := mk None Home Home None.

(** [if (v)] on a field that is [null] or a string. *)
Definition truthy (v : option string) : bool :=
  match v with
  | Some s => Window.truthy s
  | None => false
  end.

(** [['fg2m', 'fg2a', 'fg3m', 'fg3a'].includes(action)] *)
Definition isShot (action : string) : bool :=
  bool_decide (action ∈ ["fg2m"; "fg2a"; "fg3m"; "fg3a"]).

Fixpoint lastChar (s : string) : option ascii :=
  match s with
  | EmptyString => None
  | String c EmptyString => Some c
  | String _ rest => lastChar rest
  end.

(** [action.endsWith('m')] *)
Definition isMake (action : string) : bool :=
  bool_decide (lastChar action = Some "m"%char).

Definition selectPlayer (ui : t) (id : string) : t :=
  mk (Some id) (activeTeamForPad ui) (activeTeamForStats ui)
    (pendingShotAction ui).

Definition setActiveTeam (ui : t) (teamId : TeamId) : t :=
  mk None teamId (activeTeamForStats ui) (pendingShotAction ui).

(** [renderStatsTable(teamIdFilter)] keeps the shown team when called
    without one. *)
Definition renderStatsTable (ui : t) (teamIdFilter : option TeamId) : t :=
  mk (selectedPlayerId ui) (activeTeamForPad ui)
    (match teamIdFilter with
     | Some k => k
     | None => activeTeamForStats ui
     end)
    (pendingShotAction ui).

Definition processAction (ui : t) (d : Data.t) (now : Z) (secs : N)
    (action : string) (extraData : option Location.t) : Data.t :=
  match selectedPlayerId ui with
  | Some id =>
      if Window.truthy id
      then (Store.recordAction d now secs id action extraData).1
      else d
  | None => d
  end.

Definition openShotModal (ui : t) (action : string) : t :=
  if truthy (selectedPlayerId ui)
  then mk (selectedPlayerId ui) (activeTeamForPad ui) (activeTeamForStats ui)
         (Some action)
  else ui.

(** The click listener of an action button. *)
Definition clickAction (ui : t) (d : Data.t) (now : Z) (secs : N)
    (action : string) : t * Data.t :=
  if isShot action
  then (openShotModal ui action, d)
  else (ui, processAction ui d now secs action None).

(** The click listener of the court: [x], [y] are the click position in
    percent of the court's width and height. *)
Definition clickCourt (ui : t) (d : Data.t) (now : Z) (secs : N)
    (x y : Q) : t * Data.t :=
  match pendingShotAction ui with
  | Some action =>
      if Window.truthy action
      then
        (mk (selectedPlayerId ui) (activeTeamForPad ui)
           (activeTeamForStats ui) None,
         processAction ui d now secs action (Some (Location.mk x y)))
      else (ui, d)
  | None => (ui, d)
  end.

(** The entries drawn on the shot chart of [teamId], in ledger order; the
    same filter serves the screen and the report. *)
Definition shots (d : Data.t) (teamId : TeamId) : list LogEntry.t :=
  filter (fun l =>
            LogEntry.team l = teamId /\ is_Some (LogEntry.xy l) /\
            isShot (LogEntry.action l) = true)
    (Data.log d).

(** What the user can do on the page between two page loads. *)
Inductive Event :=
| EvSelectPlayer (id : string)
| EvSetActiveTeam (teamId : TeamId)
| EvShowStats (teamIdFilter : option TeamId)
| EvClickAction (now : Z) (secs : N) (action : string)
| EvClickCourt (now : Z) (secs : N) (x y : Q)
| EvAddPlayer (num name : string) (teamRadios : list (bool * TeamId))
    (id : string)
| EvToggleCourt (id : string)
| EvAdjustScore (team : TeamId) (amount : Z)
| EvTeamName (team : TeamId) (value : string).

Definition handle (st : t * Data.t) (ev : Event) : t * Data.t :=
  let '(ui, d) := st in
  match ev with
  | EvSelectPlayer id => (selectPlayer ui id, d)
  | EvSetActiveTeam teamId => (setActiveTeam ui teamId, d)
  | EvShowStats teamIdFilter => (renderStatsTable ui teamIdFilter, d)
  | EvClickAction now secs action => clickAction ui d now secs action
  | EvClickCourt now secs x y => clickCourt ui d now secs x y
  | EvAddPlayer num name radios id =>
      (ui, (Window.addPlayer d num name radios id).1)
  | EvToggleCourt id => (ui, Store.togglePlayerActive d id)
  | EvAdjustScore team amount => (ui, Window.adjustScore d team amount)
  | EvTeamName team value => (ui, Window.setTeamName d team value)
  end.

Definition play (st : t * Data.t) (evs : list Event) : t * Data.t :=
  foldl handle st evs.
End UI.

(** ** Sessions: every way the code mutates [Store.data] *)

Inductive Op :=
| OpAddPlayer (id number name : string) (teamId : TeamId)
| OpDialogAddPlayer (num name : string) (teamRadios : list (bool * TeamId))
    (id : string)
| OpTogglePlayerActive (id : string)
| OpRecordAction (now : Z) (totalSeconds : N) (playerId actionType : string)
    (extraData : option Location.t)
| OpAdjustScore (team : TeamId) (amount : Z)
| OpSetTeamName (team : TeamId) (value : string)
| OpReset (now : Z) (iso : string).

Definition step (d : Data.t) (op : Op) : Data.t :=
  match op with
  | OpAddPlayer id number name teamId => Store.addPlayer d id number name teamId
  | OpDialogAddPlayer num name radios id =>
      (Window.addPlayer d num name radios id).1
  | OpTogglePlayerActive id => Store.togglePlayerActive d id
  | OpRecordAction now secs playerId actionType extraData =>
      (Store.recordAction d now secs playerId actionType extraData).1
  | OpAdjustScore team amount => Window.adjustScore d team amount
  | OpSetTeamName team value => Window.setTeamName d team value
  | OpReset now iso => Store.reset now iso
  end.

Definition run (d : Data.t) (ops : list Op) : Data.t := foldl step d ops.

(** The session after any number of operations on a fresh one. *)
Inductive reachable : Data.t -> Prop :=
| reach_initial : reachable Store.initialData
| reach_reset now iso : reachable (Store.reset now iso)
| reach_step d op : reachable d -> reachable (step d op).

(** ** Replaying the ledger *)

Module Replay.
(** A player with the aggregate it was created with. *)
Definition zeroed (p : Player.t) : Player.t :=
  Player.set_stats Store.createEmptyStats p.

(** One ledger entry applied the way [recordAction] applies an action: the
    player is looked up by the entry's [playerId] and handed to the
    reducer. *)
Definition entry (st : Teams.t * list Player.t) (e : LogEntry.t)
    : Teams.t * list Player.t :=
  match list_find (fun pl => Player.id pl = LogEntry.playerId e) st.2 with
  | None => st
  | Some (i, p) =>
      let '(p', teams') := Store.updateStats st.1 p (LogEntry.action e) in
      (teams', <[i := p']> st.2)
  end.

(** The team records with nothing scored and no foul. *)
Definition zeroTeam (tm : Team.t) : Team.t :=
  Team.mk (Team.id tm) (Team.name tm) 0 0 (Team.color tm).
Definition zeroTeams (ts : Teams.t) : Teams.t :=
  Teams.mk (zeroTeam (Teams.home ts)) (zeroTeam (Teams.visitor ts)).

(** The roster obtained by folding the reducer over the ledger, in ledger
    order, from all-zero aggregates. *)
Definition replay (d : Data.t) : list Player.t :=
  (foldl entry (zeroTeams (Data.teams d), zeroed <$> Data.players d)
     (Data.log d)).2.
End Replay.

(** ** The scoring table of the specification *)

Inductive ActionKind :=
| twoPointMade | twoPointMissed
| threePointMade | threePointMissed
| freeThrowMade | freeThrowMissed
| offensiveRebound | defensiveRebound
| assist | steal | block | turnover
| personalFoul | drawnFoul.

(** The string the code uses for each kind. *)
Definition tag (k : ActionKind) : string :=
  match k with
  | twoPointMade => "fg2m" | twoPointMissed => "fg2a"
  | threePointMade => "fg3m" | threePointMissed => "fg3a"
  | freeThrowMade => "ftm" | freeThrowMissed => "fta"
  | offensiveRebound => "orb" | defensiveRebound => "drb"
  | assist => "ast" | steal => "stl" | block => "blk" | turnover => "tov"
  | personalFoul => "pf" | drawnFoul => "ofd"
  end.

Definition allKinds : list ActionKind :=
  [twoPointMade; twoPointMissed; threePointMade; threePointMissed;
   freeThrowMade; freeThrowMissed; offensiveRebound; defensiveRebound;
   assist; steal; block; turnover; personalFoul; drawnFoul].

(** The 14 strings [updateStats] has a case for. *)
Definition recognized : list string := tag <$> allKinds.

Module Table.
(** A row: what is added to each field of the player's aggregate, to the
    owning team's score and to its foul count. *)
Record Row := mkRow { player : Stats.t; teamScore : Z; teamFouls : Z }.

Definition zero : Stats.t := Stats.mk 0 0 0 0 0 0 0 0 0 0 0 0 0 0 0 0.

(** The table of the specification, row by row; a field the row does not
    name gets 0. *)
Definition row (k : ActionKind) : Row :=
  match k with
  | twoPointMade =>
      mkRow (Stats.mk 2 1 1 0 0 0 0 0 0 0 0 0 0 0 0 0) 2 0
  | twoPointMissed =>
      mkRow (Stats.mk 0 0 1 0 0 0 0 0 0 0 0 0 0 0 0 0) 0 0
  | threePointMade =>
      mkRow (Stats.mk 3 0 0 1 1 0 0 0 0 0 0 0 0 0 0 0) 3 0
  | threePointMissed =>
      mkRow (Stats.mk 0 0 0 0 1 0 0 0 0 0 0 0 0 0 0 0) 0 0
  | freeThrowMade =>
      mkRow (Stats.mk 1 0 0 0 0 1 1 0 0 0 0 0 0 0 0 0) 1 0
  | freeThrowMissed =>
      mkRow (Stats.mk 0 0 0 0 0 0 1 0 0 0 0 0 0 0 0 0) 0 0
  | offensiveRebound =>
      mkRow (Stats.mk 0 0 0 0 0 0 0 1 0 0 0 0 0 0 0 0) 0 0
  | defensiveRebound =>
      mkRow (Stats.mk 0 0 0 0 0 0 0 0 1 0 0 0 0 0 0 0) 0 0
  | assist =>
      mkRow (Stats.mk 0 0 0 0 0 0 0 0 0 1 0 0 0 0 0 0) 0 0
  | steal =>
      mkRow (Stats.mk 0 0 0 0 0 0 0 0 0 0 1 0 0 0 0 0) 0 0
  | block =>
      mkRow (Stats.mk 0 0 0 0 0 0 0 0 0 0 0 1 0 0 0 0) 0 0
  | turnover =>
      mkRow (Stats.mk 0 0 0 0 0 0 0 0 0 0 0 0 1 0 0 0) 0 0
  | personalFoul =>
      mkRow (Stats.mk 0 0 0 0 0 0 0 0 0 0 0 0 0 1 0 0) 0 1
  | drawnFoul =>
      mkRow (Stats.mk 0 0 0 0 0 0 0 0 0 0 0 0 0 0 1 0) 0 0
  end.

(** A team record with the row's team deltas added. *)
Definition addToTeam (r : Row) (tm : Team.t) : Team.t :=
  Team.mk (Team.id tm) (Team.name tm)
    (Team.score tm + teamScore r) (Team.fouls tm + teamFouls r)
    (Team.color tm).

(** What the table prescribes for a player and the two team records. *)
Definition apply (k : ActionKind) (teams : Teams.t) (p : Player.t)
    : Player.t * Teams.t :=
  (Player.set_stats (Stats.plus (Player.stats p) (player (row k))) p,
   Teams.update (Player.team p) (addToTeam (row k)) teams).
End Table.

(** ** StatsUtils

    The two helpers compute with JavaScript Numbers.  The counters they read
    are integers; the embedding computes the quotients exactly, in [Q], so
    the IEEE rounding of the division and of the product by 100 is not
    modelled.  [0.5] and [0.44] are the rationals 1/2 and 44/100. *)

Module StatsUtils.
Local Open Scope Q_scope.

Definition num (n : Z) : Q := inject_Z n.

(** [x.toFixed(1)]: the sign, then the integer [n] for which [n / 10] is
    closest to [|x|] (the larger one on a tie), printed with one decimal. *)
Definition toFixed1 (x : Q) : string :=
  let sign := if Qle_bool 0 x then "" else "-" in
  let n := Qfloor (Qabs x * 10 + (1 # 2)) in
  (sign ++ pretty (n / 10)%Z ++ "." ++ pretty (n mod 10)%Z)%string.

Definition calcEFG (stats : Stats.t) : string :=
  let fga := num (Stats.fg2a stats) + num (Stats.fg3a stats) in
  if Qeq_bool fga 0 then "0.0%"%string else
  let efg :=
    (num (Stats.fg2m stats) + num (Stats.fg3m stats)
       + (1 # 2) * num (Stats.fg3m stats)) / fga in
  (toFixed1 (efg * 100) ++ "%")%string.

Definition calcTS (stats : Stats.t) : string :=
  let pts := num (Stats.pts stats) in
  let fga := num (Stats.fg2a stats) + num (Stats.fg3a stats) in
  let fta := num (Stats.fta stats) in
  if Qeq_bool (fga + (44 # 100) * fta) 0 then "0.0%"%string else
  let ts := pts / (2 * (fga + (44 # 100) * fta)) in
  (toFixed1 (ts * 100) ++ "%")%string.


Definition TS_denominator (s : Stats.t) : Q :=
  2 * (num (Stats.fg2a s + Stats.fg3a s) + (44 # 100) * num (Stats.fta s)).
End StatsUtils.

(** ** Restoring the persisted snapshot

    [Store.init] assigns to [this.data] whatever [JSON.parse] returns, so
    here [Store.data] is either a session built by the code or a parsed
    JSON value.  [JSON.parse] and [localStorage] belong to the platform:
    the outcome of [JSON.parse(saved)] is an argument of [init]. *)

Module Restore.
#[local] Unset Elimination Schemes.
Inductive JSValue :=
| JNull
| JBool (b : bool)
| JNum (q : Q)
| JStr (s : string)
| JArr (items : list JSValue)
| JObj (fields : list (string * JSValue)).
#[local] Set Elimination Schemes.

Inductive DataRef :=
| Session (d : Data.t)
| Parsed (v : JSValue).

(** What is stored under the key ['basketStats_v2']: some text, or the text
    [JSON.stringify] produced for a value. *)
Inductive Blob :=
| Text (s : string)
| Stringified (d : DataRef).

(** [JSON.parse(saved)] throws a [SyntaxError] or returns a value. *)
Inductive ParseOutcome :=
| Throws
| Returns (v : JSValue).

Record Store := mkStore {
  data : DataRef;
  storage : option Blob;
  console : list string
}.

(** [if (saved)]: [null] and the empty string are falsy; the text of a
    stringified value is never empty. *)
Definition truthy (saved : option Blob) : bool :=
  match saved with
  | None => false
  | Some (Text s) => Window.truthy s
  | Some (Stringified _) => true
  end.

Definition save (st : Store) : Store :=
  mkStore (data st) (Some (Stringified (data st))) (console st).

Definition reset (st : Store) (now : Z) (iso : string) : Store :=
  save (mkStore (Session (Store.reset now iso)) (storage st) (console st)).

Definition init (st : Store) (parse : ParseOutcome) (now : Z) (iso : string)
    : Store * Completion :=
  if truthy (storage st) then
    match parse with
    | Returns v =>
        (mkStore (Parsed v) (storage st)
           (console st ++ ["State v2 restored"]), Normal)
    | Throws =>
        (mkStore (data st) (storage st)
           (console st ++ ["State restore failed"]), Normal)
    end
  else (reset st now iso, Normal).

(** The store when the page loads, with [saved] in [localStorage]. *)
Definition startup (saved : option Blob) : Store :=
  mkStore (Session Store.initialData) saved [].

(** [v[k]] for a parsed object; a key written twice keeps its last value. *)
Definition field (k : string) (v : JSValue) : option JSValue :=
  match v with
  | JObj fs =>
      match list_find (fun f : string * JSValue => f.1 = k) (reverse fs) with
      | Some (_, f) => Some f.2
      | None => None
      end
  | _ => None
  end.

Definition isArray (o : option JSValue) : bool :=
  match o with Some (JArr _) => true | _ => false end.
Definition isObject (o : option JSValue) : bool :=
  match o with Some (JObj _) => true | _ => false end.
Definition isPeriod (o : option JSValue) : bool :=
  match o with Some (JNum q) => Qle_bool 1 q | _ => false end.

(** What the specification calls a valid [GameSession]: the two team
    records, a roster, a ledger and a period of at least 1.  The source
    validates nothing; the predicate only says which snapshots count as
    corrupt. *)
Definition validGameSession (v : JSValue) : bool :=
  match field "teams" v with
  | Some ts => isObject (field "home" ts) && isObject (field "visitor" ts)
  | None => false
  end
  && isArray (field "players" v)
  && isArray (field "log" v)
  && isPeriod (field "quarter" v).

Definition teamAtZero (tm : Team.t) : bool :=
  bool_decide (Team.score tm = 0%Z) && bool_decide (Team.fouls tm = 0%Z).

(** A session with nothing recorded: no player, an empty ledger, period 1,
    both teams at zero. *)
Definition emptySession (r : DataRef) : bool :=
  match r with
  | Session d =>
      match Data.players d with [] => true | _ => false end
      && match Data.log d with [] => true | _ => false end
      && bool_decide (Data.quarter d = 1%Z)
      && teamAtZero (Teams.home (Data.teams d))
      && teamAtZero (Teams.visitor (Data.teams d))
  | Parsed v =>
      validGameSession v
      && match field "players" v with Some (JArr []) => true | _ => false end
      && match field "log" v with Some (JArr []) => true | _ => false end
  end.

End Restore.

(** ** The report: where [generatePDF] puts the tables and the charts

    Vertical positions are in the document's units, computed exactly.
    The two [finalY] arguments are what the table plugin reports as the end
    of the home and of the visitor table. *)

Module Report.
Local Open Scope Q_scope.

Record Layout := mk {
  homeTableY : Q;
  homeChartNewPage : bool;
  homeChartY : Q;
  visitorNewPage : bool;
  visitorTableY : Q;
  visitorChartNewPage : bool;
  visitorChartY : Q
}.

(** [if (currentY + need > 280) { doc.addPage(); currentY = 20; }] *)
Definition pageBreak (need currentY : Q) : bool * Q :=
  if Qle_bool (currentY + need) 280 then (false, currentY) else (true, 20).


Definition generatePDF (homeFinalY visitorFinalY : Q) : Layout :=
  let currentY := 55 in
  let currentY := currentY + 5 in
  let homeTable := currentY in
  let currentY := homeFinalY + 10 in
  let '(b1, currentY) := pageBreak 60 currentY in
  let homeChart := currentY in
  let currentY := currentY + 70 in
  let '(b2, currentY) := pageBreak 50 currentY in
  let currentY := currentY + 5 in
  let visitorTable := currentY in
  let currentY := visitorFinalY + 10 in
  let '(b3, currentY) := pageBreak 60 currentY in
  mk homeTable b1 homeChart b2 visitorTable b3 currentY.
End Report.

(** ** Predicates of the properties *)

(** Every player's aggregate satisfies [P]. *)
Definition stats_inv (P : Stats.t -> Prop) (d : Data.t) : Prop :=
  Forall (fun p => P (Player.stats p)) (Data.players d).

(** Every counter lies between 0 and [n], the points between 0 and [3 n];
    the playing time is never written. *)
Definition counters_within (n : Z) (s : Stats.t) : Prop :=
  (0 <= Stats.pts s <= 3 * n) /\
  (0 <= Stats.fg2m s <= n) /\ (0 <= Stats.fg2a s <= n) /\
  (0 <= Stats.fg3m s <= n) /\ (0 <= Stats.fg3a s <= n) /\
  (0 <= Stats.ftm s <= n) /\ (0 <= Stats.fta s <= n) /\
  (0 <= Stats.orb s <= n) /\ (0 <= Stats.drb s <= n) /\
  (0 <= Stats.ast s <= n) /\ (0 <= Stats.stl s <= n) /\
  (0 <= Stats.blk s <= n) /\ (0 <= Stats.tov s <= n) /\
  (0 <= Stats.pf s <= n) /\ (0 <= Stats.ofd s <= n) /\
  Stats.time s = 0.

Definition ledger_bounds (d : Data.t) : Prop :=
  Forall (fun p => counters_within (Z.of_nat (length (Data.log d)))
                     (Player.stats p))
    (Data.players d).

(** The points are what the makes are worth. *)
Definition points_ok (s : Stats.t) : Prop :=
  Stats.pts s = 2 * Stats.fg2m s + 3 * Stats.fg3m s + 1 * Stats.ftm s.

(** Makes never exceed attempts. *)
Definition makes_ok (s : Stats.t) : Prop :=
  Stats.fg2m s <= Stats.fg2a s /\
  Stats.fg3m s <= Stats.fg3a s /\
  Stats.ftm s <= Stats.fta s.

(** A short game, used to instantiate the statements below. *)
Definition shortGame : list Op :=
  [OpAddPlayer "p7" "7" "Ana" Home;
   OpDialogAddPlayer "11" "Bo" [(false, Home); (true, Visitor)] "p11";
   OpTogglePlayerActive "p7";
   OpRecordAction 10 600 "p7" "fg2m" (Some (Location.mk 50 10));
   OpRecordAction 20 590 "p11" "fg3a" None;
   OpAdjustScore Visitor (-1);
   OpRecordAction 30 580 "p7" "ftm" None;
   OpRecordAction 40 570 "p11" "pf" None].

(** The [Date.now()] readings of the recording calls, in call order. *)
Definition readings (ops : list Op) : list Z :=
  flat_map (fun op =>
    match op with
    | OpRecordAction now _ _ _ _ => [now]
    | _ => []
    end) ops.

(** The ids of the ledger, in ledger order. *)
Definition ids (d : Data.t) : list Z := LogEntry.id <$> Data.log d.

(** Two players the reducer cannot tell apart: same id, same team, same
    aggregate. *)
Definition sameKey (p q : Player.t) : Prop :=
  Player.id p = Player.id q /\ Player.team p = Player.team q /\
  Player.stats p = Player.stats q.

(** Two players that differ at most in their aggregate. *)
Definition sameFrame (p q : Player.t) : Prop :=
  Player.id p = Player.id q /\ Player.number p = Player.number q /\
  Player.name p = Player.name q /\ Player.team p = Player.team q /\
  Player.active p = Player.active q.

(** The roster after replaying [log] from the roster [l]. *)
Definition replayFrom (t : Teams.t) (l : list Player.t)
    (log : list LogEntry.t) : list Player.t :=
  (foldl Replay.entry (t, l) log).2.

(** Every ledger entry names a player of the roster. *)
Definition known (l : list Player.t) (log : list LogEntry.t) : Prop :=
  Forall (fun e => LogEntry.playerId e ∈ (Player.id <$> l)) log.

(** The invariant behind replay: the replayed roster agrees with the
    stored one on what the reducer reads and writes, and the ledger only
    names players of the roster. *)
Definition replay_inv (d : Data.t) : Prop :=
  Forall2 sameKey (Replay.replay d) (Data.players d) /\
  known (Data.players d) (Data.log d).

(** ** Totals and shapes used by the further properties *)

(** The sum of [f] over a roster. *)
Definition total (f : Player.t -> Z) (l : list Player.t) : Z :=
  foldr (fun p acc => f p + acc) 0 l.

(** [f] of the aggregate for the players of team [k], 0 for the others. *)
Definition ofTeam (k : TeamId) (f : Stats.t -> Z) (p : Player.t) : Z :=
  if decide (Player.team p = k) then f (Player.stats p) else 0.

(** Everything a player has been credited with, makes apart: one per
    recognized action. *)
Definition credited (s : Stats.t) : Z :=
  Stats.fg2a s + Stats.fg3a s + Stats.fta s + Stats.orb s + Stats.drb s
  + Stats.ast s + Stats.stl s + Stats.blk s + Stats.tov s + Stats.pf s
  + Stats.ofd s.

(** The ledger entries whose action the reducer knows. *)
Definition recognizedEntries (log : list LogEntry.t) : list LogEntry.t :=
  filter (fun e => LogEntry.action e ∈ recognized) log.

(** Each recognized entry was counted once, for one player. *)
Definition counts_agree (d : Data.t) : Prop :=
  Z.of_nat (length (recognizedEntries (Data.log d)))
  = total (fun p => credited (Player.stats p)) (Data.players d).

Definition isAdjust (op : Op) : bool :=
  match op with OpAdjustScore _ _ => true | _ => false end.
Definition isReset (op : Op) : bool :=
  match op with OpReset _ _ => true | _ => false end.

(** What identifies a player for good. *)
Definition identity (p : Player.t) : string * string * string * TeamId :=
  (Player.id p, Player.number p, Player.name p, Player.team p).

(** The team field [g] is the sum of the players' field [f]. *)
Definition team_agree (g : Team.t -> Z) (f : Stats.t -> Z) (d : Data.t)
    : Prop :=
  forall k, g (Teams.get (Data.teams d) k)
            = total (ofTeam k f) (Data.players d).

(** Team totals agree with the roster. *)
Definition fouls_agree (d : Data.t) : Prop :=
  forall k, Team.fouls (Teams.get (Data.teams d) k)
            = total (ofTeam k Stats.pf) (Data.players d).
Definition scores_agree (d : Data.t) : Prop :=
  forall k, Team.score (Teams.get (Data.teams d) k)
            = total (ofTeam k Stats.pts) (Data.players d).

(** The entry's player resolves, and to a player of the entry's team. *)
Definition resolves (d : Data.t) (e : LogEntry.t) : Prop :=
  exists i p, Store.find d (LogEntry.playerId e) = Some (i, p) /\
              Player.team p = LogEntry.team e.

Definition all_resolve (d : Data.t) : Prop :=
  Forall (resolves d) (Data.log d).

(** The period is the first one, in the session and in every entry, and
    the game is not marked active. *)
Definition first_period (d : Data.t) : Prop :=
  Data.quarter d = 1 /\ Data.gameActive d = false /\
  Forall (fun e => LogEntry.quarter e = 1) (Data.log d).

Definition scoreboard_nonneg (d : Data.t) : Prop :=
  forall k, 0 <= Team.score (Teams.get (Data.teams d) k) /\
            0 <= Team.fouls (Teams.get (Data.teams d) k).

(** An entry has coordinates exactly when it is a field goal. *)
Definition located (e : LogEntry.t) : Prop :=
  is_Some (LogEntry.xy e) <-> UI.isShot (LogEntry.action e) = true.

(** The counters are those of a session: none negative, makes within
    attempts, points worth the makes. *)
Definition session_stats (s : Stats.t) : Prop :=
  0 <= Stats.fg2m s /\ 0 <= Stats.fg3m s /\ 0 <= Stats.ftm s /\
  makes_ok s /\ points_ok s.

(** A pending shot, if any, is one of the four field-goal actions. *)
Definition pending_ok (ui : UI.t) : Prop :=
  match UI.pendingShotAction ui with
  | Some action => UI.isShot action = true
  | None => True
  end.

(** The timer runs on exactly one interval, or on none when stopped. *)
Definition one_interval (w : Timer.World) : Prop :=
  if Timer.isRunning (Timer.timer w)
  then exists h, Timer.interval (Timer.timer w) = Some h /\
                 Timer.live w = [h] /\ (h < Timer.next w)%nat
  else Timer.live w = [].

(** * Properties *)

(** ** Helper lemmas on the store *)

Lemma find_Some d id i p :
  Store.find d id = Some (i, p) ->
  Data.players d !! i = Some p /\ Player.id p = id.
Proof.
  unfold Store.find. intros H.
  apply list_find_Some in H. tauto.
Qed.

Lemma find_None d id :
  Store.find d id = None <->
  forall p, p ∈ Data.players d -> Player.id p <> id.
Proof.
  unfold Store.find. rewrite list_find_None, Forall_forall. reflexivity.
Qed.

Lemma set_same d :
  Data.set_teams (Data.teams d) (Data.set_players (Data.players d) d) = d.
Proof. destruct d; reflexivity. Qed.

Lemma updateStats_unrecognized teams p action :
  action ∉ recognized -> Store.updateStats teams p action = (p, teams).
Proof.
  intros Hn. unfold Store.updateStats.
  repeat case_decide; try reflexivity; subst;
    exfalso; apply Hn; apply (bool_decide_unpack _); reflexivity.
Qed.

(** The reducer only ever writes [player.stats]. *)
Lemma updateStats_frame teams p action :
  let p' := (Store.updateStats teams p action).1 in
  Player.id p' = Player.id p /\ Player.number p' = Player.number p /\
  Player.name p' = Player.name p /\ Player.team p' = Player.team p /\
  Player.active p' = Player.active p.
Proof.
  unfold Store.updateStats. repeat case_decide; simpl; tauto.
Qed.

(** ** The scoring table *)

(** C1. For each of the 14 action kinds, [updateStats] called with the
    string of that kind does to the player and to the two team records
    exactly what the row of the scoring table says: every field of the
    aggregate grows by the row's delta (0 where the row names none), the
    owning team's score and foul count grow by the row's team deltas, and
    the other team record, like every other field of the player, is left
    as it was. *)
Theorem updateStats_scoring_table (k : ActionKind) (teams : Teams.t)
    (p : Player.t) :
  Store.updateStats teams p (tag k) = Table.apply k teams p.
Proof.
  destruct p as [pid pnum pname tm act []].
  destruct teams as [[] []].
  destruct k, tm;
    unfold Table.apply, Table.addToTeam, Stats.plus, Player.set_stats;
    cbn -[Z.add]; rewrite ?Z.add_0_r; reflexivity.
Qed.

Example scenario_A :
  let d := Store.addPlayer (Store.reset 0 "") "p7" "7" "Ana" Home in
  let d' := (Store.recordAction d 1 600 "p7" "fg2m" None).1 in
  (Player.stats <$> Data.players d') =
    [Stats.mk 2 1 1 0 0 0 0 0 0 0 0 0 0 0 0 0] /\
  Team.score (Teams.home (Data.teams d')) = 2.
Proof. split; reflexivity. Qed.

Example scenario_C :
  let d := Store.addPlayer (Store.reset 0 "") "p7" "7" "Ana" Home in
  let foul now := OpRecordAction now 600 "p7" "pf" None in
  let d' := run d [foul 1; foul 2; foul 3; foul 4; foul 5] in
  (Player.stats <$> Data.players d') =
    [Stats.mk 0 0 0 0 0 0 0 0 0 0 0 0 0 5 0 0] /\
  Team.fouls (Teams.home (Data.teams d')) = 5 /\
  Team.fouls (Teams.visitor (Data.teams d')) = 0.
Proof. repeat split; reflexivity. Qed.

(** ** Unrecognized actions *)

(** C10. When [actionType] is none of the 14 strings the reducer knows and
    [playerId] is the id of a player, [recordAction] appends to the ledger
    one entry carrying that string and changes nothing else: the roster
    with all its aggregates and both team records stay as they were. *)
Theorem recordAction_unrecognized d now secs playerId actionType extraData
    i p :
  actionType ∉ recognized ->
  Store.find d playerId = Some (i, p) ->
  Store.recordAction d now secs playerId actionType extraData =
    (Data.set_log
       (Data.log d ++
          [LogEntry.mk now playerId (Player.team p) actionType
             (Data.quarter d) (Timer.getTimeStr secs) extraData]) d,
     Normal).
Proof.
  intros Hn Hf. unfold Store.recordAction. rewrite Hf.
  rewrite updateStats_unrecognized by assumption.
  apply find_Some in Hf as [Hi _]. simpl.
  rewrite list_insert_id by assumption.
  destruct d; reflexivity.
Qed.

Lemma recordAction_unrecognized_witness :
  let d := Store.addPlayer Store.initialData "p7" "7" "Ana" Home in
  Data.players (Store.recordAction d 1 600 "p7" "dunk" None).1 =
    Data.players d /\
  Data.teams (Store.recordAction d 1 600 "p7" "dunk" None).1 =
    Data.teams d /\
  LogEntry.action <$> Data.log (Store.recordAction d 1 600 "p7" "dunk" None).1
    = ["dunk"].
Proof.
  intros d.
  rewrite (recordAction_unrecognized d 1 600 "p7" "dunk" None 0%nat
             (Player.mk "p7" "7" "Ana" Home false Store.createEmptyStats)).
  - repeat split; reflexivity.
  - apply (bool_decide_unpack _). reflexivity.
  - reflexivity.
Defined.

(** ** Unknown players *)

(** C5, as the code has it.  When no player of the roster has the id
    [playerId], [recordAction] returns normally, without raising any error,
    and leaves the whole session as it was: ledger, aggregates and team
    records. *)
Theorem recordAction_unknown_player d now secs playerId actionType extraData :
  (forall p, p ∈ Data.players d -> Player.id p <> playerId) ->
  Store.recordAction d now secs playerId actionType extraData = (d, Normal).
Proof.
  intros Hn. apply find_None in Hn.
  unfold Store.recordAction. rewrite Hn. reflexivity.
Qed.

Lemma recordAction_unknown_player_witness :
  Store.recordAction Store.initialData 1 600 "nobody" "fg2m" None =
    (Store.initialData, Normal).
Proof.
  apply (recordAction_unknown_player Store.initialData 1 600 "nobody" "fg2m" None).
  simpl. intros p Hp. apply elem_of_nil in Hp. destruct Hp.
Defined.

(** The call on an id that is in no roster does not end with
    [UnknownPlayerError]. *)
Lemma recordAction_raises_no_error :
  (forall p, p ∈ Data.players Store.initialData -> Player.id p <> "nobody") /\
  (Store.recordAction Store.initialData 1 600 "nobody" "fg2m" None).2
    <> Abrupt UnknownPlayerError.
Proof.
  split.
  - simpl. intros p Hp. apply elem_of_nil in Hp. destruct Hp.
  - simpl. discriminate.
Qed.

(** ** Adding players *)

Lemma truthy_true s : s <> "" -> Window.truthy s = true.
Proof. intros H. unfold Window.truthy. case_decide; [contradiction|reflexivity]. Qed.

(** C9, as the code has it.  The dialog handler [addPlayer] does nothing
    when the number or the name is empty: no player is created and no error
    is raised.  With both non-empty it calls [Store.addPlayer], and every
    call of [Store.addPlayer] appends one player that carries the given
    number and name, is off the court and has every counter at 0. *)
Theorem addPlayer_dialog d num name teamRadios id teamId :
  (num = "" \/ name = "" ->
   Window.addPlayer d num name teamRadios id = (d, Normal)) /\
  (num <> "" -> name <> "" ->
   Window.addPlayer d num name teamRadios id =
     (Store.addPlayer d id num name (Window.checkedTeam teamRadios), Normal))
  /\
  Store.addPlayer d id num name teamId =
    Data.set_players
      (Data.players d ++ [Player.mk id num name teamId false Table.zero]) d.
Proof.
  split; [|split].
  - intros [-> | ->]; unfold Window.addPlayer; simpl.
    + reflexivity.
    + rewrite andb_false_r. reflexivity.
  - intros Hnum Hname. unfold Window.addPlayer.
    rewrite !truthy_true by assumption. reflexivity.
  - reflexivity.
Qed.

Lemma addPlayer_dialog_witness :
  Window.addPlayer Store.initialData "" "Ana" [(true, Visitor)] "p7" =
    (Store.initialData, Normal) /\
  Data.players
    (Window.addPlayer Store.initialData "7" "Ana" [(true, Visitor)] "p7").1 =
    [Player.mk "p7" "7" "Ana" Visitor false Table.zero].
Proof.
  split.
  - apply (proj1 (addPlayer_dialog Store.initialData "" "Ana"
                    [(true, Visitor)] "p7" Visitor)).
    left. reflexivity.
  - rewrite (proj1 (proj2 (addPlayer_dialog Store.initialData "7" "Ana"
                             [(true, Visitor)] "p7" Visitor))).
    + reflexivity.
    + discriminate.
    + discriminate.
Defined.

(** An empty jersey number does not end the call with
    [InvalidRosterInputError]. *)
Lemma addPlayer_raises_no_error :
  (Window.addPlayer Store.initialData "" "Ana" [] "p7").2
    <> Abrupt InvalidRosterInputError.
Proof. simpl. discriminate. Qed.

(** [Store.addPlayer] itself creates the player whatever the strings are. *)
Example store_addPlayer_unchecked :
  Data.players (Store.addPlayer Store.initialData "p7" "" "" Home) =
    [Player.mk "p7" "" "" Home false Table.zero].
Proof. reflexivity. Qed.

(** ** Invariants of the aggregates *)

Section StatsInvariant.
Variable P : Stats.t -> Prop.
Hypothesis P_empty : P Store.createEmptyStats.
Hypothesis P_update : forall teams p action,
  P (Player.stats p) -> P (Player.stats (Store.updateStats teams p action).1).

Lemma addPlayer_inv d id number name teamId :
  stats_inv P d -> stats_inv P (Store.addPlayer d id number name teamId).
Proof.
  unfold stats_inv. intros H. simpl. apply Forall_app. split; [assumption|].
  constructor; [exact P_empty | constructor].
Qed.

Lemma stats_inv_insert d i p q :
  stats_inv P d -> Data.players d !! i = Some p ->
  (P (Player.stats p) -> P (Player.stats q)) ->
  Forall (fun p => P (Player.stats p)) (<[i := q]> (Data.players d)).
Proof.
  unfold stats_inv. intros H Hi Hq. apply Forall_insert; [exact H|].
  apply Hq. rewrite Forall_lookup in H. exact (H i p Hi).
Qed.

Lemma step_inv d op : stats_inv P d -> stats_inv P (step d op).
Proof.
  intros H. destruct op; simpl.
  - apply addPlayer_inv, H.
  - unfold Window.addPlayer.
    destruct (Window.truthy num && Window.truthy name); simpl;
      [apply addPlayer_inv, H | exact H].
  - unfold Store.togglePlayerActive.
    destruct (Store.find d id) as [[i p]|] eqn:Hf; [|exact H].
    apply find_Some in Hf as [Hi _].
    apply (stats_inv_insert d i p _ H Hi). simpl. tauto.
  - unfold Store.recordAction.
    destruct (Store.find d playerId) as [[i p]|] eqn:Hf; [|exact H].
    apply find_Some in Hf as [Hi _]. simpl.
    destruct (Store.updateStats (Data.teams d) p actionType)
      as [p' teams'] eqn:Hu.
    apply (stats_inv_insert d i p p' H Hi).
    change p' with (p', teams').1. rewrite <- Hu. apply P_update.
  - exact H.
  - exact H.
  - constructor.
Qed.

Lemma reachable_inv d : reachable d -> stats_inv P d.
Proof.
  induction 1 as [| |d op _ IH].
  - constructor.
  - constructor.
  - apply step_inv, IH.
Qed.
End StatsInvariant.

Lemma updateStats_points teams p action :
  points_ok (Player.stats p) ->
  points_ok (Player.stats (Store.updateStats teams p action).1).
Proof.
  unfold points_ok, Store.updateStats.
  destruct p as [? ? ? ? ? []]; simpl.
  repeat case_decide; simpl; lia.
Qed.

Lemma updateStats_makes teams p action :
  makes_ok (Player.stats p) ->
  makes_ok (Player.stats (Store.updateStats teams p action).1).
Proof.
  unfold makes_ok, Store.updateStats.
  destruct p as [? ? ? ? ? []]; simpl.
  repeat case_decide; simpl; lia.
Qed.

(** C2. In every session reached from a fresh one, whatever the operations
    were, each player's points are twice the two-pointers made plus three
    times the three-pointers made plus the free throws made. *)
Theorem points_invariant d :
  reachable d ->
  Forall (fun p => points_ok (Player.stats p)) (Data.players d).
Proof.
  apply reachable_inv.
  - unfold points_ok. simpl. lia.
  - apply updateStats_points.
Qed.

(** C3. In every session reached from a fresh one, no player has more
    makes than attempts, for two-pointers, three-pointers and free
    throws. *)
Theorem makes_invariant d :
  reachable d ->
  Forall (fun p => makes_ok (Player.stats p)) (Data.players d).
Proof.
  apply reachable_inv.
  - unfold makes_ok. simpl. lia.
  - apply updateStats_makes.
Qed.

Lemma reachable_run d ops : reachable d -> reachable (run d ops).
Proof.
  revert d. induction ops as [|op ops IH]; intros d H; simpl; [exact H|].
  apply IH. constructor. exact H.
Qed.

Lemma points_invariant_witness :
  Forall (fun p => points_ok (Player.stats p))
    (Data.players (run Store.initialData shortGame)).
Proof.
  apply (points_invariant (run Store.initialData shortGame)).
  apply reachable_run. constructor.
Defined.

Lemma makes_invariant_witness :
  Forall (fun p => makes_ok (Player.stats p))
    (Data.players (run (Store.reset 0 "") shortGame)).
Proof.
  apply (makes_invariant (run (Store.reset 0 "") shortGame)).
  apply reachable_run. constructor.
Defined.

(** ** Counters stay small

    This is what lets [Z] stand for the JavaScript Numbers: a counter never
    exceeds the length of the ledger, the points three times that length,
    and an array has fewer than 2^32 elements. *)

Lemma counters_within_mono n m s :
  n <= m -> counters_within n s -> counters_within m s.
Proof. unfold counters_within. intros Hnm H. repeat split; lia. Qed.

Lemma updateStats_within t p action n :
  0 <= n ->
  counters_within n (Player.stats p) ->
  counters_within (n + 1) (Player.stats (Store.updateStats t p action).1).
Proof.
  unfold counters_within, Store.updateStats.
  destruct p as [? ? ? ? ? []]; simpl. intros Hn H.
  repeat case_decide; simpl; repeat split; lia.
Qed.

Lemma ledger_bounds_addPlayer d id number name teamId :
  ledger_bounds d -> ledger_bounds (Store.addPlayer d id number name teamId).
Proof.
  unfold ledger_bounds. simpl. intros H. apply Forall_app. split; [exact H|].
  constructor; [|constructor]. unfold counters_within. simpl.
  repeat split; lia.
Qed.

Lemma ledger_bounds_step d op : ledger_bounds d -> ledger_bounds (step d op).
Proof.
  intros H. destruct op; simpl.
  - apply ledger_bounds_addPlayer, H.
  - unfold Window.addPlayer.
    destruct (Window.truthy num && Window.truthy name); simpl;
      [apply ledger_bounds_addPlayer, H | exact H].
  - unfold Store.togglePlayerActive.
    destruct (Store.find d id) as [[i p]|] eqn:Hf; [|exact H].
    apply find_Some in Hf as [Hi _]. unfold ledger_bounds in *. simpl.
    apply Forall_insert; [exact H|]. simpl.
    rewrite Forall_lookup in H. exact (H i p Hi).
  - unfold Store.recordAction.
    destruct (Store.find d playerId) as [[i p]|] eqn:Hf; [|exact H].
    apply find_Some in Hf as [Hi _]. simpl.
    destruct (Store.updateStats (Data.teams d) p actionType)
      as [p' teams'] eqn:Hu.
    unfold ledger_bounds in *. simpl.
    rewrite length_app, Nat2Z.inj_add. simpl.
    apply Forall_insert.
    + eapply Forall_impl; [exact H|]. intros q Hq.
      eapply counters_within_mono; [|exact Hq]. lia.
    + change p' with (p', teams').1. rewrite <- Hu.
      apply updateStats_within; [lia|].
      rewrite Forall_lookup in H. exact (H i p Hi).
  - exact H.
  - exact H.
  - constructor.
Qed.

Lemma reachable_ledger_bounds d : reachable d -> ledger_bounds d.
Proof.
  induction 1 as [| |d op _ IH].
  - constructor.
  - constructor.
  - apply ledger_bounds_step, IH.
Qed.

Example recognized_distinct : length recognized = 14%nat /\ NoDup recognized.
Proof. split; [reflexivity | apply (bool_decide_unpack _); reflexivity]. Qed.

(** ** Ledger ids *)

Lemma recordAction_ids d now secs playerId actionType extraData :
  let d' := (Store.recordAction d now secs playerId actionType extraData).1 in
  ids d' = ids d ++ [now] \/ d' = d.
Proof.
  unfold Store.recordAction.
  destruct (Store.find d playerId) as [[i p]|]; [|right; reflexivity].
  left. simpl.
  destruct (Store.updateStats (Data.teams d) p actionType) as [p' teams'].
  unfold ids. simpl. rewrite fmap_app. reflexivity.
Qed.

Lemma StronglySorted_drop_middle (l1 l2 : list Z) x :
  StronglySorted Z.lt (l1 ++ x :: l2) -> StronglySorted Z.lt (l1 ++ l2).
Proof.
  rewrite !StronglySorted_app, StronglySorted_cons.
  intros (H12 & H1 & _ & H2). split; [|tauto].
  intros a b Ha Hb. apply H12; [assumption|]. apply elem_of_cons. tauto.
Qed.

Lemma StronglySorted_lt_NoDup (l : list Z) :
  StronglySorted Z.lt l -> NoDup l.
Proof.
  induction 1 as [|x l _ IH Hx]; constructor; [|exact IH].
  intros Hin. rewrite Forall_forall in Hx. specialize (Hx x Hin). lia.
Qed.

Lemma step_ids_other d op :
  match op with
  | OpRecordAction _ _ _ _ _ | OpReset _ _ => True
  | _ => ids (step d op) = ids d
  end.
Proof.
  destruct op; simpl; try exact I; try reflexivity.
  - unfold Window.addPlayer.
    destruct (Window.truthy num && Window.truthy name); reflexivity.
  - unfold Store.togglePlayerActive.
    destruct (Store.find d id) as [[i p]|]; reflexivity.
Qed.

(** C6, as the code has it.  The id of a ledger entry is the clock reading
    of the call that appended it.  So when every recording call reads a
    clock value strictly above all ids already in the ledger and above the
    readings of all earlier calls, the ids are strictly increasing in
    ledger order and none repeats. *)
Theorem ledger_ids_increasing d ops :
  StronglySorted Z.lt (ids d ++ readings ops) ->
  StronglySorted Z.lt (ids (run d ops)) /\ NoDup (ids (run d ops)).
Proof.
  intros H. cut (StronglySorted Z.lt (ids (run d ops))).
  { intros Hs. split; [exact Hs | apply StronglySorted_lt_NoDup, Hs]. }
  revert d H. induction ops as [|op ops IH]; intros d H; simpl in *.
  - rewrite app_nil_r in H. exact H.
  - apply IH.
    pose proof (step_ids_other d op) as Ho.
    destruct op; simpl in H; try (rewrite Ho; exact H).
    + destruct (recordAction_ids d now totalSeconds playerId actionType
                  extraData) as [He | He]; simpl in *.
      * rewrite He, <- app_assoc. exact H.
      * rewrite He. apply StronglySorted_drop_middle in H. exact H.
    + simpl. apply StronglySorted_app_1_r in H. exact H.
Qed.

Lemma ledger_ids_increasing_witness :
  ids (run Store.initialData shortGame) = [10; 20; 30; 40] /\
  StronglySorted Z.lt (ids (run Store.initialData shortGame)) /\
  NoDup (ids (run Store.initialData shortGame)).
Proof.
  split; [reflexivity|].
  apply (ledger_ids_increasing Store.initialData shortGame).
  simpl. repeat (constructor; [| repeat (constructor; [lia|]); constructor]).
  constructor.
Defined.

(** Two actions recorded within the same millisecond get the same id. *)
Lemma same_millisecond_same_id :
  let d := run Store.initialData
             [OpAddPlayer "p7" "7" "Ana" Home;
              OpRecordAction 5 600 "p7" "fg2m" None;
              OpRecordAction 5 600 "p7" "fg2a" None] in
  ids d = [5; 5] /\ ~ NoDup (ids d) /\ ~ StronglySorted Z.lt (ids d).
Proof.
  intros d. assert (Hd : ids d = [5; 5]) by reflexivity.
  rewrite Hd. split; [reflexivity|]. split.
  - intros H. apply NoDup_cons in H as [H _]. apply H. constructor.
  - intros H. apply StronglySorted_cons in H as [H _].
    apply Forall_cons in H as [H _]. lia.
Qed.

(** ** Replay *)

Lemma sameKey_refl p : sameKey p p.
Proof. unfold sameKey. tauto. Qed.

Lemma sameKey_trans p q r : sameKey p q -> sameKey q r -> sameKey p r.
Proof. unfold sameKey. intros (?&?&?) (?&?&?). repeat split; congruence. Qed.

Lemma sameFrame_refl p : sameFrame p p.
Proof. unfold sameFrame. tauto. Qed.

Lemma sameFrame_trans p q r : sameFrame p q -> sameFrame q r -> sameFrame p r.
Proof.
  unfold sameFrame. intros (?&?&?&?&?) (?&?&?&?&?). repeat split; congruence.
Qed.

Lemma sameKey_sameFrame_eq p q : sameKey p q -> sameFrame p q -> p = q.
Proof.
  destruct p, q. unfold sameKey, sameFrame. simpl.
  intros (?&?&?) (?&?&?&?&?). congruence.
Qed.

Lemma Forall2_refl_on {A} (R : A -> A -> Prop) (l : list A) :
  (forall x, R x x) -> Forall2 R l l.
Proof. intros H. apply Forall_Forall2_diag, Forall_forall. auto. Qed.

Lemma Forall2_insert_l {A} (R : A -> A -> Prop) (l k : list A) i x y :
  Forall2 R l k -> k !! i = Some y -> R x y -> Forall2 R (<[i := x]> l) k.
Proof.
  intros Hl Hi Hxy. rewrite <- (list_insert_id k i y Hi).
  apply Forall2_insert; assumption.
Qed.

Lemma updateStats_sameKey t1 t2 p q action :
  sameKey p q ->
  sameKey (Store.updateStats t1 p action).1 (Store.updateStats t2 q action).1.
Proof.
  destruct p, q. unfold sameKey. simpl. intros (-> & -> & ->).
  unfold Store.updateStats. repeat case_decide; simpl; tauto.
Qed.

Lemma updateStats_sameFrame t p action :
  sameFrame (Store.updateStats t p action).1 p.
Proof. unfold sameFrame. apply updateStats_frame. Qed.

Lemma find_sim (x : string) (l1 l2 : list Player.t) :
  Forall2 sameKey l1 l2 ->
  match list_find (fun pl => Player.id pl = x) l1,
        list_find (fun pl => Player.id pl = x) l2 with
  | Some (i, p), Some (j, q) => i = j /\ sameKey p q
  | None, None => True
  | _, _ => False
  end.
Proof.
  induction 1 as [|p q l1 l2 Hpq _ IH]; simpl; [exact I|].
  destruct Hpq as (Hid & Hrest).
  repeat case_decide; try congruence.
  - split; [reflexivity | split; assumption].
  - destruct (list_find _ l1) as [[i p']|], (list_find _ l2) as [[j q']|];
      simpl; try contradiction; [|exact I].
    destruct IH as [-> ?]. split; [reflexivity | assumption].
Qed.

Lemma entry_sim t1 t2 l1 l2 e :
  Forall2 sameKey l1 l2 ->
  Forall2 sameKey (Replay.entry (t1, l1) e).2 (Replay.entry (t2, l2) e).2.
Proof.
  intros H. unfold Replay.entry. simpl.
  pose proof (find_sim (LogEntry.playerId e) l1 l2 H) as Hf.
  destruct (list_find _ l1) as [[i p]|], (list_find _ l2) as [[j q]|];
    try contradiction; [|exact H].
  destruct Hf as [-> Hpq].
  pose proof (updateStats_sameKey t1 t2 p q (LogEntry.action e) Hpq) as Hu.
  destruct (Store.updateStats t1 p _) as [p' t1'].
  destruct (Store.updateStats t2 q _) as [q' t2']. simpl in *.
  apply Forall2_insert; assumption.
Qed.

Lemma replayFrom_sim log t1 t2 l1 l2 :
  Forall2 sameKey l1 l2 ->
  Forall2 sameKey (replayFrom t1 l1 log) (replayFrom t2 l2 log).
Proof.
  unfold replayFrom. revert t1 t2 l1 l2.
  induction log as [|e log IH]; intros t1 t2 l1 l2 H; simpl; [exact H|].
  pose proof (entry_sim t1 t2 l1 l2 e H) as He.
  destruct (Replay.entry (t1, l1) e) as [t1' l1'].
  destruct (Replay.entry (t2, l2) e) as [t2' l2'].
  apply IH, He.
Qed.

Lemma entry_frame t l e : Forall2 sameFrame (Replay.entry (t, l) e).2 l.
Proof.
  unfold Replay.entry. simpl.
  destruct (list_find _ l) as [[i p]|] eqn:Hf;
    [|apply Forall2_refl_on, sameFrame_refl].
  apply list_find_Some in Hf as (Hi & _).
  pose proof (updateStats_sameFrame t p (LogEntry.action e)) as Hu.
  destruct (Store.updateStats t p _) as [p' t']. simpl in *.
  eapply Forall2_insert_l; eauto. apply Forall2_refl_on, sameFrame_refl.
Qed.

Lemma replayFrom_frame log t l : Forall2 sameFrame (replayFrom t l log) l.
Proof.
  unfold replayFrom. revert t l.
  induction log as [|e log IH]; intros t l; simpl;
    [apply Forall2_refl_on, sameFrame_refl|].
  pose proof (entry_frame t l e) as He.
  destruct (Replay.entry (t, l) e) as [t' l']. simpl in He.
  eapply Forall2_trans; [apply sameFrame_trans | apply IH | exact He].
Qed.

Lemma sameFrame_ids l1 l2 :
  Forall2 sameFrame l1 l2 -> Player.id <$> l1 = Player.id <$> l2.
Proof.
  intros H. apply list_eq_Forall2, Forall2_fmap.
  eapply Forall2_impl; [exact H|]. intros p q Hpq. apply Hpq.
Qed.

Lemma sameKey_ids l1 l2 :
  Forall2 sameKey l1 l2 -> Player.id <$> l1 = Player.id <$> l2.
Proof.
  intros H. apply list_eq_Forall2, Forall2_fmap.
  eapply Forall2_impl; [exact H|]. intros p q Hpq. apply Hpq.
Qed.

Lemma entry_app t l k e :
  LogEntry.playerId e ∈ (Player.id <$> l) ->
  Replay.entry (t, l ++ k) e =
    ((Replay.entry (t, l) e).1, (Replay.entry (t, l) e).2 ++ k).
Proof.
  intros Hin. apply list_elem_of_fmap in Hin as (p0 & Hid & Hp0).
  destruct (list_find_elem_of (fun pl => Player.id pl = LogEntry.playerId e)
              l p0 Hp0 (eq_sym Hid)) as [[i p] Hf].
  unfold Replay.entry. simpl.
  rewrite (list_find_app_l _ l k i p Hf), Hf.
  apply list_find_Some in Hf as (Hi & _).
  destruct (Store.updateStats t p _) as [p' t']. simpl.
  rewrite insert_app_l by (eapply lookup_lt_Some; eassumption).
  reflexivity.
Qed.

Lemma replayFrom_app log t l k :
  known l log -> replayFrom t (l ++ k) log = replayFrom t l log ++ k.
Proof.
  unfold replayFrom, known. revert t l.
  induction log as [|e log IH]; intros t l H; simpl; [reflexivity|].
  apply Forall_cons in H as [He H].
  rewrite entry_app by assumption.
  pose proof (entry_frame t l e) as Hfr. apply sameFrame_ids in Hfr.
  destruct (Replay.entry (t, l) e) as [t' l']. simpl in *.
  apply IH. rewrite Hfr. exact H.
Qed.

Lemma zeroed_updateStats t p action :
  Replay.zeroed (Store.updateStats t p action).1 = Replay.zeroed p.
Proof.
  unfold Store.updateStats. repeat case_decide; reflexivity.
Qed.

Lemma replay_unfold d :
  Replay.replay d =
    replayFrom (Replay.zeroTeams (Data.teams d))
      (Replay.zeroed <$> Data.players d) (Data.log d).
Proof. reflexivity. Qed.

(** A change of the team records alone does not disturb the invariant. *)
Lemma replay_inv_teams d ts : replay_inv d -> replay_inv (Data.set_teams ts d).
Proof.
  intros [H K]. split; [|exact K].
  rewrite replay_unfold in *. simpl.
  eapply Forall2_trans; [apply sameKey_trans | | exact H].
  apply replayFrom_sim, Forall2_refl_on, sameKey_refl.
Qed.

Lemma replay_inv_addPlayer d id number name teamId :
  replay_inv d -> replay_inv (Store.addPlayer d id number name teamId).
Proof.
  intros [H K]. split.
  - rewrite replay_unfold in *. simpl. rewrite fmap_app. simpl.
    rewrite replayFrom_app.
    + apply Forall2_app; [exact H|].
      constructor; [|constructor]. unfold sameKey. simpl. tauto.
    + unfold known in *. eapply Forall_impl; [exact K|].
      intros e He. simpl in He. rewrite <- list_fmap_compose.
      exact He.
  - unfold known in *. simpl. eapply Forall_impl; [exact K|].
    intros e He. simpl in He. rewrite fmap_app. apply elem_of_app. tauto.
Qed.

Lemma replay_inv_toggle d id : replay_inv d -> replay_inv (Store.togglePlayerActive d id).
Proof.
  intros [H K]. unfold Store.togglePlayerActive.
  destruct (Store.find d id) as [[i p]|] eqn:Hf; [|split; assumption].
  apply find_Some in Hf as [Hi _].
  set (q := Player.set_active (negb (Player.active p)) p).
  assert (Hq : Forall2 sameKey (<[i := q]> (Data.players d)) (Data.players d)).
  { eapply Forall2_insert_l; [apply Forall2_refl_on, sameKey_refl | exact Hi |].
    unfold sameKey. simpl. tauto. }
  split.
  - rewrite replay_unfold in *. simpl.
    eapply Forall2_trans; [apply sameKey_trans | |].
    + apply (replayFrom_sim _ _ (Replay.zeroTeams (Data.teams d)) _
               (Replay.zeroed <$> Data.players d)).
      apply Forall2_fmap. eapply Forall2_impl; [exact Hq|].
      intros a b (?&?&?). unfold sameKey. simpl. tauto.
    + eapply Forall2_trans; [apply sameKey_trans | exact H |].
      apply Forall2_flip. eapply Forall2_impl; [exact Hq|].
      intros a b (?&?&?). unfold flip, sameKey. auto.
  - unfold known in *. simpl. rewrite (sameKey_ids _ _ Hq). exact K.
Qed.

Lemma replay_inv_recordAction d now secs playerId actionType extraData :
  replay_inv d ->
  replay_inv (Store.recordAction d now secs playerId actionType extraData).1.
Proof.
  intros [H K]. unfold Store.recordAction.
  destruct (Store.find d playerId) as [[i p]|] eqn:Hf; [|split; assumption].
  pose proof Hf as Hf'. apply find_Some in Hf' as [Hi Hid].
  simpl.
  destruct (Store.updateStats (Data.teams d) p actionType) as [p' teams'] eqn:Hu.
  assert (Hp' : p' = (Store.updateStats (Data.teams d) p actionType).1)
    by (rewrite Hu; reflexivity).
  assert (Hids : Player.id <$> <[i := p']> (Data.players d)
                 = Player.id <$> Data.players d).
  { rewrite list_fmap_insert. apply list_insert_id.
    rewrite list_lookup_fmap, Hi. simpl. f_equal.
    rewrite Hp'. symmetry. apply updateStats_frame. }
  split.
  - rewrite replay_unfold in *. simpl.
    rewrite list_fmap_insert, Hp', zeroed_updateStats.
    rewrite (list_insert_id (Replay.zeroed <$> Data.players d))
      by (rewrite list_lookup_fmap, Hi; reflexivity).
    unfold replayFrom in *. rewrite foldl_app. simpl.
    pose proof (replayFrom_sim (Data.log d) (Replay.zeroTeams teams')
                  (Replay.zeroTeams (Data.teams d)) _ _
                  (Forall2_refl_on sameKey
                     (Replay.zeroed <$> Data.players d) sameKey_refl)) as Hs.
    unfold replayFrom in Hs.
    destruct (foldl Replay.entry (Replay.zeroTeams teams', _) (Data.log d))
      as [t1 l1].
    simpl in Hs.
    assert (H1 : Forall2 sameKey l1 (Data.players d)).
    { eapply Forall2_trans; [apply sameKey_trans | exact Hs | exact H]. }
    set (e := LogEntry.mk now playerId (Player.team p) actionType
                (Data.quarter d) (Timer.getTimeStr secs) extraData).
    pose proof (entry_sim t1 (Data.teams d) l1 (Data.players d) e H1) as He.
    unfold Replay.entry at 2 in He. simpl in He.
    unfold Store.find in Hf. rewrite Hf, Hu in He. simpl in He.
    rewrite <- Hp'. exact He.
  - unfold known in *. simpl. rewrite Hids.
    apply Forall_app. split; [exact K|].
    constructor; [|constructor]. simpl.
    apply list_elem_of_fmap. exists p. split; [congruence|].
    eapply list_elem_of_lookup_2. exact Hi.
Qed.

Lemma replay_inv_step d op : replay_inv d -> replay_inv (step d op).
Proof.
  intros H. destruct op; simpl.
  - apply replay_inv_addPlayer, H.
  - unfold Window.addPlayer.
    destruct (Window.truthy num && Window.truthy name); simpl;
      [apply replay_inv_addPlayer, H | exact H].
  - apply replay_inv_toggle, H.
  - apply replay_inv_recordAction, H.
  - apply replay_inv_teams, H.
  - apply replay_inv_teams, H.
  - split; constructor.
Qed.

Lemma reachable_replay_inv d : reachable d -> replay_inv d.
Proof.
  induction 1 as [| |d op _ IH].
  - split; constructor.
  - split; constructor.
  - apply replay_inv_step, IH.
Qed.

(** C4. In every session reached from a fresh one, folding the reducer
    over the ledger, in ledger order, from a roster whose aggregates are all
    zero gives back the stored roster: every player has exactly the
    aggregate the session holds for it. *)
Theorem replay_reproduces_aggregates d :
  reachable d -> Replay.replay d = Data.players d.
Proof.
  intros Hr. destruct (reachable_replay_inv d Hr) as [H _].
  apply list_eq_Forall2.
  assert (Hfr : Forall2 (fun p q => sameFrame p (Replay.zeroed q))
                  (Replay.replay d) (Data.players d)).
  { apply (proj1 (Forall2_fmap_r Replay.zeroed sameFrame _ _)).
    rewrite replay_unfold. apply replayFrom_frame. }
  apply Forall2_same_length_lookup. split.
  - eapply Forall2_length, H.
  - intros i p q Hp Hq. apply sameKey_sameFrame_eq.
    + eapply Forall2_lookup_lr; eassumption.
    + exact (Forall2_lookup_lr _ _ _ i p q Hfr Hp Hq).
Qed.

Lemma replay_reproduces_aggregates_witness :
  Replay.replay (run Store.initialData shortGame) =
    Data.players (run Store.initialData shortGame).
Proof.
  apply (replay_reproduces_aggregates (run Store.initialData shortGame)).
  apply reachable_run. constructor.
Defined.

(** ** Advanced metrics *)






(** For the counters of a session, which are never negative, a zero
    denominator means that nothing was attempted. *)
Lemma metrics_without_attempts (s : Stats.t) :
  (Stats.fg2a s = 0 -> Stats.fg3a s = 0 -> StatsUtils.calcEFG s = "0.0%") /\
  (Stats.fg2a s = 0 -> Stats.fg3a s = 0 -> Stats.fta s = 0 ->
   StatsUtils.calcTS s = "0.0%") /\
  (0 <= Stats.fg2a s -> 0 <= Stats.fg3a s -> 0 <= Stats.fta s ->
   (StatsUtils.TS_denominator s == 0)%Q ->
   Stats.fg2a s = 0 /\ Stats.fg3a s = 0 /\ Stats.fta s = 0).
Proof.
  destruct s as [pts fg2m fg2a fg3m fg3a ftm fta ? ? ? ? ? ? ? ? ?]. simpl.
  split; [|split].
  - intros -> ->. reflexivity.
  - intros -> -> ->. reflexivity.
  - unfold StatsUtils.TS_denominator, StatsUtils.num. simpl.
    intros H2 H3 Hf Hd.
    unfold Qeq, Qmult, Qplus, inject_Z in Hd. simpl in Hd. lia.
Qed.

Example metrics_no_attempts :
  StatsUtils.calcEFG Store.createEmptyStats = "0.0%" /\
  StatsUtils.calcTS Store.createEmptyStats = "0.0%".
Proof. split; reflexivity. Qed.

Example metrics_sample :
  let s := Stats.mk 8 1 2 2 3 0 2 0 0 0 0 0 0 0 0 0 in
  StatsUtils.calcEFG s = "80.0%" /\ StatsUtils.calcTS s = "68.0%".
Proof. split; reflexivity. Qed.

(** ** Restoring a snapshot *)




(** With nothing stored, [init] resets to a fresh session and saves it. *)
Example init_without_snapshot :
  Restore.init (Restore.startup None) Restore.Throws 7 "now" =
    (Restore.mkStore (Restore.Session (Store.reset 7 "now"))
       (Some (Restore.Stringified (Restore.Session (Store.reset 7 "now"))))
       [], Normal).
Proof. reflexivity. Qed.

(** * Further properties of the store *)

(** ** Invariants, operation by operation *)

Section StepInduction.
Variable I : Data.t -> Prop.
Variable ok : Op -> bool.
Hypothesis I_add : forall d id number name teamId,
  I d -> I (Store.addPlayer d id number name teamId).
Hypothesis I_toggle : forall d id, I d -> I (Store.togglePlayerActive d id).
Hypothesis I_record : forall d now secs playerId actionType extraData,
  I d -> I (Store.recordAction d now secs playerId actionType extraData).1.
Hypothesis I_adjust : forall d team amount,
  ok (OpAdjustScore team amount) = true ->
  I d -> I (Window.adjustScore d team amount).
Hypothesis I_name : forall d team value,
  I d -> I (Window.setTeamName d team value).
Hypothesis I_reset : forall d now iso,
  ok (OpReset now iso) = true -> I d -> I (Store.reset now iso).

Lemma step_preserves d op : ok op = true -> I d -> I (step d op).
Proof.
  intros Hok H. destruct op; simpl.
  - apply I_add, H.
  - unfold Window.addPlayer.
    destruct (Window.truthy num && Window.truthy name); simpl;
      [apply I_add, H | exact H].
  - apply I_toggle, H.
  - apply I_record, H.
  - apply I_adjust; assumption.
  - apply I_name, H.
  - eapply I_reset; eassumption.
Qed.

Lemma run_preserves ops d : forallb ok ops = true -> I d -> I (run d ops).
Proof.
  revert d. induction ops as [|op ops IH]; intros d Hok H; simpl; [exact H|].
  simpl in Hok. apply andb_prop in Hok as [Ho Hok].
  apply IH; [exact Hok|]. apply step_preserves; assumption.
Qed.
End StepInduction.

Lemma reachable_preserves (I : Data.t -> Prop) :
  I Store.initialData ->
  (forall now iso, I (Store.reset now iso)) ->
  (forall d op, I d -> I (step d op)) ->
  forall d, reachable d -> I d.
Proof.
  intros H0 Hr Hs d Hd. induction Hd as [| |d op _ IH]; auto.
Qed.

(** ** What one call of the reducer adds *)

Lemma total_insert f (l : list Player.t) i p q :
  l !! i = Some p -> total f (<[i := q]> l) = total f l - f p + f q.
Proof.
  revert i. induction l as [|a l IH]; intros [|i] Hi; simpl in *;
    try discriminate.
  - injection Hi as ->. lia.
  - rewrite (IH i Hi). lia.
Qed.

Lemma total_app f (l k : list Player.t) :
  total f (l ++ k) = total f l + total f k.
Proof. induction l as [|a l IH]; simpl; [reflexivity | rewrite IH; lia]. Qed.

Lemma updateStats_team_totals t p action k :
  let r := Store.updateStats t p action in
  Team.fouls (Teams.get r.2 k) - Team.fouls (Teams.get t k)
    = ofTeam k Stats.pf r.1 - ofTeam k Stats.pf p /\
  Team.score (Teams.get r.2 k) - Team.score (Teams.get t k)
    = ofTeam k Stats.pts r.1 - ofTeam k Stats.pts p.
Proof.
  destruct p as [pid pnum pname tm act []]. destruct t as [[] []].
  unfold Store.updateStats, ofTeam.
  repeat case_decide; destruct tm, k; simpl in *; try congruence;
    split; lia.
Qed.

Lemma updateStats_credited t p action :
  credited (Player.stats (Store.updateStats t p action).1)
    = credited (Player.stats p)
      + (if bool_decide (action ∈ recognized) then 1 else 0).
Proof.
  destruct (bool_decide (action ∈ recognized)) eqn:Hr.
  - apply bool_decide_eq_true in Hr.
    destruct p as [pid pnum pname tm act []].
    unfold recognized in Hr. simpl in Hr.
    repeat (apply elem_of_cons in Hr as [-> | Hr];
            [unfold credited; simpl; lia|]).
    apply elem_of_nil in Hr. destruct Hr.
  - apply bool_decide_eq_false in Hr.
    rewrite updateStats_unrecognized by assumption. simpl. lia.
Qed.

(** ** Team totals against the roster *)

Section TeamTotals.
Variable g : Team.t -> Z.
Variable f : Stats.t -> Z.
Hypothesis f_empty : f Store.createEmptyStats = 0.
Hypothesis g_name : forall v tm, g (Team.set_name v tm) = g tm.
Hypothesis delta : forall t p action k,
  g (Teams.get (Store.updateStats t p action).2 k) - g (Teams.get t k)
  = ofTeam k f (Store.updateStats t p action).1 - ofTeam k f p.

Lemma agree_add d id number name teamId :
  team_agree g f d -> team_agree g f (Store.addPlayer d id number name teamId).
Proof.
  intros H k. simpl. rewrite total_app, <- (H k). simpl.
  unfold ofTeam. simpl. case_decide; lia.
Qed.

Lemma agree_toggle d id : team_agree g f d -> team_agree g f (Store.togglePlayerActive d id).
Proof.
  intros H k. unfold Store.togglePlayerActive.
  destruct (Store.find d id) as [[i p]|] eqn:Hf; [|apply H].
  apply find_Some in Hf as [Hi _]. simpl.
  rewrite (total_insert _ _ i p _ Hi), <- (H k).
  unfold ofTeam. simpl. lia.
Qed.

Lemma agree_record d now secs playerId actionType extraData :
  team_agree g f d ->
  team_agree g f (Store.recordAction d now secs playerId actionType extraData).1.
Proof.
  intros H k. unfold Store.recordAction.
  destruct (Store.find d playerId) as [[i p]|] eqn:Hf; [|apply H].
  apply find_Some in Hf as [Hi _]. simpl.
  pose proof (delta (Data.teams d) p actionType k) as Hd.
  destruct (Store.updateStats (Data.teams d) p actionType) as [p' t'].
  simpl in *. rewrite (total_insert _ _ i p p' Hi), <- (H k). lia.
Qed.

Lemma agree_name d team value :
  team_agree g f d -> team_agree g f (Window.setTeamName d team value).
Proof.
  intros H k. simpl. rewrite <- (H k).
  destruct (Data.teams d) as [th tv]. destruct team, k; simpl;
    rewrite ?g_name; reflexivity.
Qed.
End TeamTotals.

Lemma fouls_delta t p action k :
  Team.fouls (Teams.get (Store.updateStats t p action).2 k)
    - Team.fouls (Teams.get t k)
  = ofTeam k Stats.pf (Store.updateStats t p action).1 - ofTeam k Stats.pf p.
Proof. apply updateStats_team_totals. Qed.

Lemma score_delta t p action k :
  Team.score (Teams.get (Store.updateStats t p action).2 k)
    - Team.score (Teams.get t k)
  = ofTeam k Stats.pts (Store.updateStats t p action).1
    - ofTeam k Stats.pts p.
Proof. apply updateStats_team_totals. Qed.

Lemma adjustScore_fouls d team amount k :
  Team.fouls (Teams.get (Data.teams (Window.adjustScore d team amount)) k)
  = Team.fouls (Teams.get (Data.teams d) k).
Proof.
  unfold Window.adjustScore. destruct (Data.teams d) as [[] []].
  destruct team, k; simpl; case_decide; reflexivity.
Qed.

(** X1. In every session reached from a fresh one, the foul count of each
    team is the sum of the personal fouls of that team's players. *)
Theorem fouls_match_roster d : reachable d -> fouls_agree d.
Proof.
  apply reachable_preserves.
  - intros []; reflexivity.
  - intros now iso []; reflexivity.
  - intros d0 op H.
    apply (step_preserves fouls_agree (fun _ => true)); try assumption;
      try reflexivity.
    + apply (agree_add Team.fouls Stats.pf). reflexivity.
    + apply (agree_toggle Team.fouls Stats.pf).
    + apply (agree_record Team.fouls Stats.pf). apply fouls_delta.
    + intros d1 team amount _ H1 k. rewrite adjustScore_fouls. apply H1.
    + apply (agree_name Team.fouls Stats.pf). reflexivity.
    + intros d1 now iso _ _ []; reflexivity.
Qed.

Lemma fouls_match_roster_witness :
  fouls_agree (run Store.initialData shortGame).
Proof.
  apply (fouls_match_roster (run Store.initialData shortGame)).
  apply reachable_run. constructor.
Defined.

(** X2. As long as the score is not adjusted by hand, the score of each
    team is the sum of the points of that team's players: it holds in a
    fresh session and after any operations other than [adjustScore]. *)
Theorem score_matches_roster d ops :
  scores_agree d ->
  forallb (fun op => negb (isAdjust op)) ops = true ->
  scores_agree (run d ops).
Proof.
  intros H Hops.
  apply (run_preserves scores_agree (fun op => negb (isAdjust op)));
    try assumption.
  - apply (agree_add Team.score Stats.pts). reflexivity.
  - apply (agree_toggle Team.score Stats.pts).
  - apply (agree_record Team.score Stats.pts). apply score_delta.
  - intros d1 team amount Hf. discriminate Hf.
  - apply (agree_name Team.score Stats.pts). reflexivity.
  - intros d1 now iso _ _ []; reflexivity.
Qed.

Lemma score_matches_roster_witness :
  scores_agree
    (run Store.initialData
       [OpAddPlayer "p7" "7" "Ana" Home;
        OpAddPlayer "p11" "11" "Bo" Visitor;
        OpRecordAction 10 600 "p7" "fg3m" None;
        OpRecordAction 20 590 "p11" "ftm" None;
        OpReset 30 "";
        OpAddPlayer "p4" "4" "Cy" Home;
        OpRecordAction 40 600 "p4" "fg2m" None]).
Proof.
  apply score_matches_roster.
  - intros []; reflexivity.
  - reflexivity.
Defined.

(** A manual adjustment breaks the agreement. *)
Example adjusted_score_disagrees :
  let d := Window.adjustScore Store.initialData Home 1 in
  Team.score (Teams.home (Data.teams d)) = 1 /\
  total (ofTeam Home Stats.pts) (Data.players d) = 0.
Proof. split; reflexivity. Qed.

(** ** The ledger against the roster *)

(** X3. In every session reached from a fresh one, the number of ledger
    entries with a recognized action equals the sum, over all players, of
    their attempt and event counters (two-point, three-point and free-throw
    attempts, rebounds, assists, steals, blocks, turnovers, fouls committed
    and drawn): each such entry was counted once, for one player. *)
Theorem ledger_counts_match d : reachable d -> counts_agree d.
Proof.
  apply (reachable_preserves counts_agree).
  - reflexivity.
  - reflexivity.
  - intros d0 op H.
    apply (step_preserves counts_agree (fun _ => true)); try assumption;
      try reflexivity; unfold counts_agree.
    + intros d1 id number name teamId H1. simpl.
      rewrite total_app, <- H1. simpl. unfold credited. simpl. lia.
    + intros d1 id H1. unfold Store.togglePlayerActive.
      destruct (Store.find d1 id) as [[i p]|] eqn:Hf; [|exact H1].
      apply find_Some in Hf as [Hi _]. simpl.
      rewrite (total_insert _ _ i p _ Hi), <- H1. simpl. lia.
    + intros d1 now secs playerId actionType extraData H1.
      unfold Store.recordAction.
      destruct (Store.find d1 playerId) as [[i p]|] eqn:Hf; [|exact H1].
      apply find_Some in Hf as [Hi _]. simpl.
      pose proof (updateStats_credited (Data.teams d1) p actionType) as Hc.
      destruct (Store.updateStats (Data.teams d1) p actionType) as [p' t'].
      simpl in *. rewrite (total_insert _ _ i p p' Hi), <- H1, Hc.
      unfold recognizedEntries. rewrite filter_app, length_app.
      rewrite filter_cons, filter_nil. simpl.
      destruct (decide (actionType ∈ recognized)) as [Hr|Hr].
      * rewrite (bool_decide_eq_true_2 _ Hr). simpl. lia.
      * rewrite (bool_decide_eq_false_2 _ Hr). simpl. lia.
    + intros d1 team amount _ H1. exact H1.
    + intros d1 team value H1. exact H1.
Qed.

Lemma ledger_counts_match_witness :
  counts_agree (run Store.initialData shortGame).
Proof.
  apply (ledger_counts_match (run Store.initialData shortGame)).
  apply reachable_run. constructor.
Defined.

Lemma find_app_stable d id number name teamId x i p :
  Store.find d x = Some (i, p) ->
  Store.find (Store.addPlayer d id number name teamId) x = Some (i, p).
Proof. unfold Store.find. simpl. apply list_find_app_l. Qed.

Lemma find_insert_same_id d x i p j q q' :
  Store.find d x = Some (i, p) ->
  Data.players d !! j = Some q -> Player.id q' = Player.id q ->
  exists p', Store.find (Data.set_players (<[j := q']> (Data.players d)) d) x
             = Some (i, p') /\
             (p' = p \/ (p' = q' /\ p = q)).
Proof.
  unfold Store.find. simpl. intros Hf Hj Hid.
  apply list_find_Some in Hf as (Hi & Hp & Hlt).
  destruct (decide (i = j)) as [->|Hne].
  - exists q'. split; [|right; split; [reflexivity | congruence]].
    apply list_find_Some. split; [|split].
    + apply list_lookup_insert_eq. eapply lookup_lt_Some, Hj.
    + rewrite Hid. congruence.
    + intros k y Hk Hkj. rewrite list_lookup_insert_ne in Hk by lia.
      eapply Hlt; eassumption.
  - exists p. split; [|left; reflexivity].
    apply list_find_Some. split; [|split].
    + rewrite list_lookup_insert_ne by congruence. exact Hi.
    + exact Hp.
    + intros k y Hk Hki.
      destruct (decide (k = j)) as [->|Hkj].
      * rewrite list_lookup_insert_eq in Hk by (eapply lookup_lt_Some, Hj).
        injection Hk as <-. rewrite Hid. eapply Hlt; eassumption.
      * rewrite list_lookup_insert_ne in Hk by congruence.
        eapply Hlt; eassumption.
Qed.

Lemma resolves_insert d j q q' e :
  Data.players d !! j = Some q ->
  Player.id q' = Player.id q -> Player.team q' = Player.team q ->
  resolves d e ->
  resolves (Data.set_players (<[j := q']> (Data.players d)) d) e.
Proof.
  intros Hj Hid Htm (i & p & Hf & Ht).
  destruct (find_insert_same_id d _ i p j q q' Hf Hj Hid)
    as (p' & Hf' & [-> | [-> ->]]).
  - exists i, p. split; assumption.
  - exists i, q'. split; [assumption | congruence].
Qed.

(** X4. In every session reached from a fresh one, each ledger entry names
    a player of the roster, and the team stored in the entry is the team of
    the player its [playerId] resolves to. *)
Theorem entries_resolve d : reachable d -> all_resolve d.
Proof.
  apply (reachable_preserves all_resolve).
  - constructor.
  - intros. constructor.
  - intros d0 op H.
    apply (step_preserves all_resolve (fun _ => true)); try assumption;
      try reflexivity; unfold all_resolve.
    + intros d1 id number name teamId H1. simpl.
      eapply Forall_impl; [exact H1|]. intros e (i & p & Hf & Ht).
      exists i, p. split; [|exact Ht]. apply find_app_stable, Hf.
    + intros d1 id H1. unfold Store.togglePlayerActive.
      destruct (Store.find d1 id) as [[j q]|] eqn:Hf; [|exact H1].
      apply find_Some in Hf as [Hj _]. simpl.
      eapply Forall_impl; [exact H1|]. intros e He.
      apply (resolves_insert d1 j q _ e Hj); try reflexivity. exact He.
    + intros d1 now secs playerId actionType extraData H1.
      unfold Store.recordAction.
      destruct (Store.find d1 playerId) as [[j q]|] eqn:Hf; [|exact H1].
      pose proof Hf as Hf0. apply find_Some in Hf as [Hj Hq]. simpl.
      pose proof (updateStats_frame (Data.teams d1) q actionType)
        as (Hid & _ & _ & Htm & _).
      destruct (Store.updateStats (Data.teams d1) q actionType) as [q' t'].
      simpl in *.
      assert (Hall : forall e, resolves d1 e ->
                resolves (Data.set_teams t'
                  (Data.set_players (<[j := q']> (Data.players d1))
                     (Data.set_log (Data.log d1 ++
                        [LogEntry.mk now playerId (Player.team q) actionType
                           (Data.quarter d1) (Timer.getTimeStr secs)
                           extraData]) d1))) e).
      { intros e He.
        destruct (resolves_insert d1 j q q' e Hj Hid Htm He)
          as (i & p & Hfe & Hte).
        exists i, p. split; assumption. }
      apply Forall_app. split.
      * eapply Forall_impl; [exact H1 | exact Hall].
      * constructor; [|constructor]. apply Hall.
        exists j, q. split; [exact Hf0 | reflexivity].
    + intros d1 team amount _ H1. exact H1.
    + intros d1 team value H1. exact H1.
    + intros. constructor.
Qed.

Lemma entries_resolve_witness :
  all_resolve (run Store.initialData shortGame).
Proof.
  apply (entries_resolve (run Store.initialData shortGame)).
  apply reachable_run. constructor.
Defined.

(** X8. In every session reached from a fresh one, no counter of any
    player is negative or exceeds the number of ledger entries, the points
    never exceed three times that number, and the playing time is 0. *)
Theorem counters_bounded_by_ledger d : reachable d -> ledger_bounds d.
Proof. apply reachable_ledger_bounds. Qed.

Lemma counters_bounded_by_ledger_witness :
  ledger_bounds (run Store.initialData shortGame).
Proof.
  apply (counters_bounded_by_ledger (run Store.initialData shortGame)).
  apply reachable_run. constructor.
Defined.

(** ** What never changes *)

Lemma step_log d op :
  isReset op = false ->
  exists l, Data.log (step d op) = Data.log d ++ l /\ (length l <= 1)%nat.
Proof.
  intros Hr. destruct op; simpl in *; try discriminate;
    try (exists []; rewrite app_nil_r; split; [reflexivity | simpl; lia]).
  - unfold Window.addPlayer.
    destruct (Window.truthy num && Window.truthy name);
      exists []; rewrite app_nil_r; split; try reflexivity; simpl; lia.
  - unfold Store.togglePlayerActive.
    destruct (Store.find d id) as [[i p]|];
      exists []; rewrite app_nil_r; split; try reflexivity; simpl; lia.
  - unfold Store.recordAction.
    destruct (Store.find d playerId) as [[i p]|].
    + simpl.
      destruct (Store.updateStats (Data.teams d) p actionType) as [p' t'].
      eexists. split; [reflexivity | simpl; lia].
    + exists []. rewrite app_nil_r. split; [reflexivity | simpl; lia].
Qed.

(** X5. Unless the session is reset, the ledger only grows at its end:
    after any operations the old ledger is a prefix of the new one, and each
    operation adds at most one entry. *)
Theorem ledger_append_only d ops :
  forallb (fun op => negb (isReset op)) ops = true ->
  Data.log d `prefix_of` Data.log (run d ops) /\
  (length (Data.log (run d ops)) <= length (Data.log d) + length ops)%nat.
Proof.
  revert d. induction ops as [|op ops IH]; intros d Hok; simpl in *.
  - split; [reflexivity | lia].
  - apply andb_prop in Hok as [Ho Hok]. apply negb_true_iff in Ho.
    destruct (step_log d op Ho) as (l & Hl & Hlen).
    destruct (IH (step d op) Hok) as [Hp Hn]. rewrite Hl in Hp, Hn.
    split.
    + etrans; [|exact Hp]. apply prefix_app_r. reflexivity.
    + rewrite length_app in Hn. lia.
Qed.

Lemma ledger_append_only_witness :
  Data.log Store.initialData `prefix_of`
    Data.log (run Store.initialData shortGame) /\
  (length (Data.log (run Store.initialData shortGame))
   <= length (Data.log Store.initialData) + length shortGame)%nat.
Proof.
  apply (ledger_append_only Store.initialData shortGame). reflexivity.
Defined.

Lemma identity_insert (l : list Player.t) i p q :
  l !! i = Some p -> identity q = identity p ->
  identity <$> <[i := q]> l = identity <$> l.
Proof.
  intros Hi Hq. rewrite list_fmap_insert, Hq. apply list_insert_id.
  rewrite list_lookup_fmap, Hi. reflexivity.
Qed.

Lemma step_roster d op :
  isReset op = false ->
  exists l, identity <$> Data.players (step d op)
            = (identity <$> Data.players d) ++ l.
Proof.
  intros Hr. destruct op; simpl in *; try discriminate;
    try (exists []; rewrite app_nil_r; reflexivity).
  - eexists. rewrite fmap_app. reflexivity.
  - unfold Window.addPlayer.
    destruct (Window.truthy num && Window.truthy name); simpl.
    + eexists. rewrite fmap_app. reflexivity.
    + exists []. rewrite app_nil_r. reflexivity.
  - exists []. rewrite app_nil_r. unfold Store.togglePlayerActive.
    destruct (Store.find d id) as [[i p]|] eqn:Hf; [|reflexivity].
    apply find_Some in Hf as [Hi _]. simpl.
    apply (identity_insert _ i p); [exact Hi | reflexivity].
  - exists []. rewrite app_nil_r. unfold Store.recordAction.
    destruct (Store.find d playerId) as [[i p]|] eqn:Hf; [|reflexivity].
    apply find_Some in Hf as [Hi _]. simpl.
    pose proof (updateStats_frame (Data.teams d) p actionType)
      as (H1 & H2 & H3 & H4 & _).
    destruct (Store.updateStats (Data.teams d) p actionType) as [p' t'].
    simpl in *. apply (identity_insert _ i p); [exact Hi|].
    unfold identity. congruence.
Qed.

(** X6. Unless the session is reset, players are never removed, reordered,
    renamed, renumbered or moved to the other team: the roster's ids,
    numbers, names and teams before any operations are a prefix of those
    after. *)
Theorem roster_append_only d ops :
  forallb (fun op => negb (isReset op)) ops = true ->
  (identity <$> Data.players d)
    `prefix_of` (identity <$> Data.players (run d ops)).
Proof.
  revert d. induction ops as [|op ops IH]; intros d Hok; simpl in *.
  - reflexivity.
  - apply andb_prop in Hok as [Ho Hok]. apply negb_true_iff in Ho.
    destruct (step_roster d op Ho) as (l & Hl).
    specialize (IH (step d op) Hok). rewrite Hl in IH.
    etrans; [|exact IH]. apply prefix_app_r. reflexivity.
Qed.

Lemma roster_append_only_witness :
  (identity <$> Data.players (Store.addPlayer Store.initialData "p1" "1" "Al" Home))
    `prefix_of`
  (identity <$> Data.players
     (run (Store.addPlayer Store.initialData "p1" "1" "Al" Home) shortGame)).
Proof.
  apply (roster_append_only
           (Store.addPlayer Store.initialData "p1" "1" "Al" Home) shortGame).
  reflexivity.
Defined.

(** X7. No operation ever advances the period or marks the game active: in
    every session reached from a fresh one the quarter is 1, [gameActive]
    is false and every ledger entry is stamped with quarter 1. *)
Theorem period_never_advances d : reachable d -> first_period d.
Proof.
  apply (reachable_preserves first_period).
  - repeat split. constructor.
  - intros. repeat split. constructor.
  - intros d0 op H.
    apply (step_preserves first_period (fun _ => true)); try assumption;
      try reflexivity; unfold first_period.
    + intros d1 id number name teamId H1. exact H1.
    + intros d1 id H1. unfold Store.togglePlayerActive.
      destruct (Store.find d1 id) as [[i p]|]; exact H1.
    + intros d1 now secs playerId actionType extraData (Hq & Ha & Hl).
      unfold Store.recordAction.
      destruct (Store.find d1 playerId) as [[i p]|]; [|tauto]. simpl.
      destruct (Store.updateStats (Data.teams d1) p actionType) as [p' t'].
      simpl. repeat split; try assumption.
      apply Forall_app. split; [exact Hl|].
      constructor; [exact Hq | constructor].
    + intros d1 team amount _ H1. exact H1.
    + intros d1 team value H1. exact H1.
    + intros. repeat split. constructor.
Qed.

Lemma period_never_advances_witness :
  first_period (run Store.initialData shortGame).
Proof.
  apply (period_never_advances (run Store.initialData shortGame)).
  apply reachable_run. constructor.
Defined.

Lemma updateStats_team_grows t p action k :
  Team.score (Teams.get t k)
    <= Team.score (Teams.get (Store.updateStats t p action).2 k) /\
  Team.fouls (Teams.get t k)
    <= Team.fouls (Teams.get (Store.updateStats t p action).2 k).
Proof.
  destruct p as [pid pnum pname tm act []]. destruct t as [[] []].
  unfold Store.updateStats.
  repeat case_decide; destruct tm, k; simpl; split; lia.
Qed.

(** X9. In every session reached from a fresh one, neither team's score
    nor its foul count is negative, whatever amounts [adjustScore] was
    called with. *)
Theorem scoreboard_never_negative d : reachable d -> scoreboard_nonneg d.
Proof.
  apply (reachable_preserves scoreboard_nonneg).
  - intros []; simpl; lia.
  - intros now iso []; simpl; lia.
  - intros d0 op H.
    apply (step_preserves scoreboard_nonneg (fun _ => true));
      try assumption; try reflexivity; unfold scoreboard_nonneg.
    + intros d1 id number name teamId H1. exact H1.
    + intros d1 id H1. unfold Store.togglePlayerActive.
      destruct (Store.find d1 id) as [[i p]|]; exact H1.
    + intros d1 now secs playerId actionType extraData H1 k.
      unfold Store.recordAction.
      destruct (Store.find d1 playerId) as [[i p]|]; [|apply H1]. simpl.
      pose proof (updateStats_team_grows (Data.teams d1) p actionType k).
      destruct (Store.updateStats (Data.teams d1) p actionType) as [p' t'].
      simpl in *. specialize (H1 k). lia.
    + intros d1 team amount _ H1 k. specialize (H1 k).
      unfold Window.adjustScore. destruct (Data.teams d1) as [[] []].
      destruct team, k; simpl in *; case_decide; simpl; lia.
    + intros d1 team value H1 k. specialize (H1 k).
      unfold Window.setTeamName. destruct (Data.teams d1) as [[] []].
      destruct team, k; simpl in *; lia.
    + intros d1 now iso _ _ []; simpl; lia.
Qed.

Lemma scoreboard_never_negative_witness :
  scoreboard_nonneg
    (run Store.initialData (shortGame ++ [OpAdjustScore Home (-100)])).
Proof.
  apply (scoreboard_never_negative
           (run Store.initialData (shortGame ++ [OpAdjustScore Home (-100)]))).
  apply reachable_run. constructor.
Defined.

(** ** Single operations *)

Lemma find_after_insert d id i p q :
  Store.find d id = Some (i, p) -> Player.id q = id ->
  Store.find (Data.set_players (<[i := q]> (Data.players d)) d) id
  = Some (i, q).
Proof.
  intros Hf Hq. pose proof Hf as Hf0. apply find_Some in Hf0 as [Hi Hp].
  destruct (find_insert_same_id d id i p i p q Hf Hi) as (p' & Hf' & Hc).
  { congruence. }
  rewrite Hf'. f_equal. f_equal.
  unfold Store.find in Hf'. simpl in Hf'.
  apply list_find_Some in Hf' as (Hl & _).
  rewrite list_lookup_insert_eq in Hl by (eapply lookup_lt_Some, Hi).
  congruence.
Qed.

(** X10. Sending the same player to the court and back restores the
    session exactly: [togglePlayerActive] applied twice with the same id is
    the identity, whether or not the id is known and even when several
    players share it. *)
Theorem togglePlayerActive_twice d id :
  Store.togglePlayerActive (Store.togglePlayerActive d id) id = d.
Proof.
  unfold Store.togglePlayerActive at 2.
  destruct (Store.find d id) as [[i p]|] eqn:Hf.
  - pose proof Hf as Hf0. apply find_Some in Hf0 as [Hi Hp].
    unfold Store.togglePlayerActive.
    rewrite (find_after_insert d id i p _ Hf) by exact Hp. simpl.
    rewrite list_insert_insert_eq.
    replace (Player.set_active _ _) with p
      by (destruct p as [? ? ? ? [] ?]; reflexivity).
    rewrite list_insert_id by exact Hi. destruct d; reflexivity.
  - unfold Store.togglePlayerActive. rewrite Hf. reflexivity.
Qed.

(** X11. [togglePlayerActive] touches nothing but one flag: team records
    and ledger stay, every player keeps id, number, name, team and
    aggregate, and the only [active] flag that flips is that of the first
    player with the given id; an id nobody has changes nothing. *)
Theorem togglePlayerActive_frame d id :
  let d' := Store.togglePlayerActive d id in
  Data.teams d' = Data.teams d /\ Data.log d' = Data.log d /\
  (fun p => (identity p, Player.stats p)) <$> Data.players d'
    = (fun p => (identity p, Player.stats p)) <$> Data.players d /\
  match Store.find d id with
  | Some (i, p) =>
      Player.active <$> Data.players d'
      = <[i := negb (Player.active p)]> (Player.active <$> Data.players d)
  | None => d' = d
  end.
Proof.
  unfold Store.togglePlayerActive.
  destruct (Store.find d id) as [[i p]|] eqn:Hf; simpl.
  - apply find_Some in Hf as [Hi _]. repeat split.
    + rewrite list_fmap_insert. apply list_insert_id.
      rewrite list_lookup_fmap, Hi. reflexivity.
    + rewrite list_fmap_insert. reflexivity.
  - repeat split.
Qed.


(** X13. Recording one of the 14 known actions for an existing player is
    one step that does three things together: it appends one entry stamped
    with the player's team, the current quarter and the timer string; it
    applies the action's table row to the first player with that id; and it
    applies the row's team deltas to that player's team.  Every other
    player and the rest of the session stay as they were. *)
Theorem recordAction_known d now secs playerId k extraData i p :
  Store.find d playerId = Some (i, p) ->
  Store.recordAction d now secs playerId (tag k) extraData =
    (Data.mk (Data.gameId d) (Data.date d)
       (Table.apply k (Data.teams d) p).2
       (<[i := (Table.apply k (Data.teams d) p).1]> (Data.players d))
       (Data.log d ++
          [LogEntry.mk now playerId (Player.team p) (tag k) (Data.quarter d)
             (Timer.getTimeStr secs) extraData])
       (Data.quarter d) (Data.gameActive d),
     Normal).
Proof.
  intros Hf. unfold Store.recordAction. rewrite Hf.
  destruct d as [gi da ts ps lg q ga]. simpl.
  assert (Hu : Store.updateStats ts p (tag k) = Table.apply k ts p).
  { destruct p as [pid pnum pname tm act []]. destruct ts as [[] []].
    destruct k, tm;
      unfold Table.apply, Table.addToTeam, Stats.plus, Player.set_stats;
      cbn -[Z.add]; rewrite ?Z.add_0_r; reflexivity. }
  rewrite Hu. reflexivity.
Qed.

Lemma recordAction_known_witness :
  let d := run Store.initialData
             [OpAddPlayer "p7" "7" "Ana" Home;
              OpAddPlayer "p7" "8" "Twin" Visitor] in
  Player.stats <$> Data.players
    (Store.recordAction d 5 61 "p7" "fg3m" None).1
  = [Stats.mk 3 0 0 1 1 0 0 0 0 0 0 0 0 0 0 0; Table.zero] /\
  LogEntry.gameTime <$> Data.log
    (Store.recordAction d 5 61 "p7" "fg3m" None).1 = ["01:01"].
Proof.
  intros d.
  change (Store.recordAction d 5 61 "p7" "fg3m" None)
    with (Store.recordAction d 5 61 "p7" (tag threePointMade) None).
  rewrite (recordAction_known d 5 61 "p7" threePointMade None 0%nat
             (Player.mk "p7" "7" "Ana" Home false Store.createEmptyStats)).
  - split; reflexivity.
  - reflexivity.
Defined.

Lemma checkedTeam_unchecked (l : list (bool * TeamId)) v :
  Forall (fun r => r.1 = false) l ->
  foldl (fun teamId (r : bool * TeamId) => if r.1 then r.2 else teamId) v l
  = v.
Proof.
  intros H. revert v. induction H as [|[b t] l Hb _ IH]; intros v; simpl;
    [reflexivity|]. simpl in Hb. subst b. apply IH.
Qed.

(** X14. The team chosen in the add-player dialog is ['home'] when no
    radio button is checked, and otherwise the value of the last checked
    one. *)
Theorem checkedTeam_last (teamRadios : list (bool * TeamId)) :
  (Forall (fun r => r.1 = false) teamRadios ->
   Window.checkedTeam teamRadios = Home) /\
  (forall l v l', teamRadios = l ++ (true, v) :: l' ->
     Forall (fun r => r.1 = false) l' ->
     Window.checkedTeam teamRadios = v).
Proof.
  unfold Window.checkedTeam. split.
  - apply checkedTeam_unchecked.
  - intros l v l' -> Hl'. rewrite foldl_app. simpl.
    apply checkedTeam_unchecked, Hl'.
Qed.

Lemma checkedTeam_last_witness :
  Window.checkedTeam [(false, Home); (false, Visitor)] = Home /\
  Window.checkedTeam [(true, Home); (true, Visitor); (false, Home)] = Visitor.
Proof.
  split.
  - apply (proj1 (checkedTeam_last [(false, Home); (false, Visitor)])).
    repeat constructor.
  - apply (proj2 (checkedTeam_last
                    [(true, Home); (true, Visitor); (false, Home)])
             [(true, Home)] Visitor [(false, Home)]).
    + reflexivity.
    + repeat constructor.
Defined.

(** * The timer *)

Lemma getTimeStr_table :
  Forall (fun n => Timer.getTimeStr n = Timer.clockFace n)
    (N.of_nat <$> seq 0 (N.to_nat 6000)).
Proof. apply (bool_decide_unpack _). vm_compute. reflexivity. Qed.

(** X15. For every number of seconds below 6000 (100 minutes) the clock
    string is exactly five characters, two decimal digits of minutes, a
    colon and two decimal digits of seconds, each part padded with a
    zero. *)
Theorem getTimeStr_format (n : N) :
  (n < 6000)%N ->
  Timer.getTimeStr n = Timer.clockFace n /\
  String.length (Timer.getTimeStr n) = 5%nat.
Proof.
  intros Hn.
  assert (H : Timer.getTimeStr n = Timer.clockFace n).
  { pose proof getTimeStr_table as Ht. rewrite Forall_lookup in Ht.
    apply (Ht (N.to_nat n)).
    rewrite list_lookup_fmap, lookup_seq_lt by lia. simpl.
    rewrite N2Nat.id. reflexivity. }
  split; [exact H | rewrite H; reflexivity].
Qed.

Lemma getTimeStr_format_witness :
  Timer.getTimeStr 599 = "09:59" /\
  String.length (Timer.getTimeStr 599) = 5%nat.
Proof.
  destruct (getTimeStr_format 599) as [H1 H2]; [reflexivity|].
  split; [rewrite H1; reflexivity | exact H2].
Defined.

(** From 100 minutes on the string gets longer: nothing truncates it. *)
Example getTimeStr_long : Timer.getTimeStr 6000 = "100:00".
Proof. reflexivity. Qed.

Lemma handle_one_interval w ev :
  one_interval w -> one_interval (Timer.handle w ev).
Proof.
  unfold one_interval. destruct w as [[ts iv run] lv nx]. simpl.
  intros H. destruct ev as [|h]; simpl.
  - unfold Timer.toggle. simpl. destruct run; simpl.
    + destruct H as (h & -> & -> & _). simpl.
      rewrite filter_cons, filter_nil. case_decide; [contradiction|].
      reflexivity.
    + exists nx. subst lv. repeat split. lia.
  - case_bool_decide; [|exact H].
    unfold Timer.tick. simpl. destruct (0 <? ts)%N; simpl; [exact H|].
    destruct run.
    + destruct H as (h' & -> & -> & _). simpl.
      rewrite filter_cons, filter_nil. case_decide; [contradiction|].
      reflexivity.
    + subst lv. destruct iv; reflexivity.
Qed.

(** X16. Whatever the user clicks and whenever the browser fires, the
    timer runs on exactly one interval while it is running and on none
    while it is stopped: starting never stacks a second interval, and
    stopping always clears the one that is live. *)
Theorem timer_one_interval (evs : list Timer.Event) :
  one_interval (Timer.play Timer.initial evs).
Proof.
  assert (H : forall w, one_interval w -> one_interval (Timer.play w evs)).
  { induction evs as [|ev evs IH]; intros w Hw; simpl; [exact Hw|].
    apply IH, handle_one_interval, Hw. }
  apply H. reflexivity.
Qed.

Lemma handle_seconds w ev :
  (Timer.totalSeconds (Timer.timer (Timer.handle w ev))
   <= Timer.totalSeconds (Timer.timer w))%N.
Proof.
  destruct w as [[ts iv run] lv nx]. destruct ev as [|h]; simpl.
  - unfold Timer.toggle, Timer.start, Timer.stop. simpl.
    destruct run; simpl; lia.
  - case_bool_decide; simpl; [|lia].
    unfold Timer.tick. simpl. destruct (0 <? ts)%N; simpl; lia.
Qed.

(** X17. Nothing ever puts time back on the clock: after any clicks and
    ticks the remaining seconds are at most what they were, so from the
    initial 600 they never exceed 600. *)
Theorem timer_never_gains (w : Timer.World) (evs : list Timer.Event) :
  (Timer.totalSeconds (Timer.timer (Timer.play w evs))
   <= Timer.totalSeconds (Timer.timer w))%N /\
  (Timer.totalSeconds (Timer.timer (Timer.play Timer.initial evs))
   <= 600)%N.
Proof.
  assert (H : forall w0,
            (Timer.totalSeconds (Timer.timer (Timer.play w0 evs))
             <= Timer.totalSeconds (Timer.timer w0))%N).
  { induction evs as [|ev evs IH]; intros w0; simpl; [lia|].
    etrans; [apply IH | apply handle_seconds]. }
  split; [apply H | apply (H Timer.initial)].
Qed.

Lemma fire_stopped w h k :
  Timer.live w = [] -> Timer.play w (replicate k (Timer.Fire h)) = w.
Proof.
  intros Hl. induction k as [|k IH]; simpl; [reflexivity|].
  rewrite Hl. rewrite bool_decide_eq_false_2 by (apply not_elem_of_nil).
  exact IH.
Qed.

(** X18. A running timer counts down one second per tick and stops itself
    on the first tick that finds the clock at zero: with [T] seconds left,
    after [k] ticks there are [T - k] seconds left (0 once [k] exceeds [T])
    and the timer is still running exactly when [k <= T]. *)
Theorem timer_countdown (w : Timer.World) (h : nat) (k : nat) :
  Timer.isRunning (Timer.timer w) = true ->
  Timer.interval (Timer.timer w) = Some h ->
  Timer.live w = [h] ->
  let w' := Timer.play w (replicate k (Timer.Fire h)) in
  Timer.totalSeconds (Timer.timer w')
    = (Timer.totalSeconds (Timer.timer w) - N.of_nat k)%N /\
  Timer.isRunning (Timer.timer w')
    = bool_decide (N.of_nat k <= Timer.totalSeconds (Timer.timer w))%N.
Proof.
  revert w. induction k as [|k IH]; intros w Hr Hi Hl; simpl.
  - split; [lia|]. rewrite Hr. symmetry. apply bool_decide_eq_true_2. lia.
  - rewrite Hl. rewrite bool_decide_eq_true_2 by (apply elem_of_cons; tauto).
    destruct w as [[ts iv run] lv nx]. simpl in *. subst run iv lv.
    unfold Timer.tick. simpl.
    destruct (0 <? ts)%N eqn:Hts.
    + apply N.ltb_lt in Hts.
      destruct (IH (Timer.mkWorld (Timer.mk (ts - 1) (Some h) true) [h] nx)
                  eq_refl eq_refl eq_refl) as [H1 H2].
      simpl in *. rewrite H1, H2. split; [lia|].
      apply bool_decide_ext. lia.
    + apply N.ltb_ge in Hts. unfold Timer.stop. simpl.
      rewrite filter_cons, filter_nil.
      case_decide; [contradiction|].
      rewrite fire_stopped by reflexivity. simpl. split; [lia|].
      symmetry. apply bool_decide_eq_false_2. lia.
Qed.

Lemma timer_countdown_witness :
  let w := Timer.play (Timer.toggle Timer.initial)
             (replicate 601 (Timer.Fire 0)) in
  Timer.totalSeconds (Timer.timer w) = 0%N /\
  Timer.isRunning (Timer.timer w) = false.
Proof.
  destruct (timer_countdown (Timer.toggle Timer.initial) 0 601
              eq_refl eq_refl eq_refl) as [H1 H2].
  split; [rewrite H1; reflexivity | rewrite H2; reflexivity].
Defined.

(** * The shot chart and the action pad *)

Lemma recordAction_log d now secs playerId actionType extraData :
  Data.log (Store.recordAction d now secs playerId actionType extraData).1
  = Data.log d ++
    match Store.find d playerId with
    | Some (_, p) =>
        [LogEntry.mk now playerId (Player.team p) actionType (Data.quarter d)
           (Timer.getTimeStr secs) extraData]
    | None => []
    end.
Proof.
  unfold Store.recordAction.
  destruct (Store.find d playerId) as [[i p]|]; simpl.
  - destruct (Store.updateStats (Data.teams d) p actionType). reflexivity.
  - rewrite app_nil_r. reflexivity.
Qed.

(** X19. Recording changes a shot chart in one case only: a field-goal
    action recorded with coordinates for an existing player adds that one
    entry at the end of the chart of the player's team.  Without
    coordinates, for any other action, for an unknown player, and on the
    other team's chart, nothing is added; and no point is ever removed.
    Among charted actions the ones drawn as makes are exactly ['fg2m'] and
    ['fg3m']. *)
Theorem shots_after_recordAction d now secs playerId actionType extraData
    teamId :
  UI.shots (Store.recordAction d now secs playerId actionType extraData).1
    teamId
  = UI.shots d teamId ++
    match Store.find d playerId, extraData with
    | Some (_, p), Some xy =>
        if bool_decide (Player.team p = teamId) && UI.isShot actionType
        then [LogEntry.mk now playerId (Player.team p) actionType
                (Data.quarter d) (Timer.getTimeStr secs) (Some xy)]
        else []
    | _, _ => []
    end
  /\
  (UI.isShot actionType = true ->
   (UI.isMake actionType = true <->
    actionType = "fg2m" \/ actionType = "fg3m")).
Proof.
  split.
  - unfold UI.shots. rewrite recordAction_log, filter_app. f_equal.
    destruct (Store.find d playerId) as [[i p]|]; [|reflexivity].
    rewrite filter_cons, filter_nil. simpl.
    destruct extraData as [xy|].
    + case_decide as Hc.
      * destruct Hc as (Ht & _ & Hs).
        rewrite (bool_decide_eq_true_2 _ Ht), Hs. reflexivity.
      * destruct (bool_decide (Player.team p = teamId)) eqn:Ht,
                 (UI.isShot actionType) eqn:Hs; simpl; try reflexivity.
        exfalso. apply Hc. apply bool_decide_eq_true in Ht.
        repeat split; [exact Ht | eexists; reflexivity].
    + case_decide as Hc; [|reflexivity].
      destruct Hc as (_ & [? Hx] & _). discriminate Hx.
  - intros Hs. unfold UI.isShot in Hs. apply bool_decide_eq_true in Hs.
    repeat (apply elem_of_cons in Hs as [-> | Hs];
            [vm_compute; split;
             [intros ?; first [left; reflexivity | right; reflexivity
                              | discriminate]
             | intros [? | ?]; first [reflexivity | discriminate]]|]).
    apply elem_of_nil in Hs. destruct Hs.
Qed.

Lemma processAction_located ui d now secs action extraData :
  (is_Some extraData <-> UI.isShot action = true) ->
  Forall located (Data.log d) ->
  Forall located (Data.log (UI.processAction ui d now secs action extraData)).
Proof.
  intros Hx H. unfold UI.processAction.
  destruct (UI.selectedPlayerId ui) as [id|]; [|exact H].
  destruct (Window.truthy id); [|exact H].
  rewrite recordAction_log. apply Forall_app. split; [exact H|].
  destruct (Store.find d id) as [[i p]|]; [|constructor].
  constructor; [exact Hx | constructor].
Qed.

Lemma handle_located ui d ev :
  pending_ok ui -> Forall located (Data.log d) ->
  pending_ok (UI.handle (ui, d) ev).1 /\
  Forall located (Data.log (UI.handle (ui, d) ev).2).
Proof.
  intros Hp H. destruct ev; simpl; try (split; assumption).
  - unfold UI.clickAction. destruct (UI.isShot action) eqn:Hs; simpl.
    + split; [|exact H]. unfold UI.openShotModal.
      destruct (UI.truthy (UI.selectedPlayerId ui)); [exact Hs | exact Hp].
    + split; [exact Hp|]. apply processAction_located; [|exact H].
      split; [intros [? Hx]; discriminate Hx | intros Hx; congruence].
  - unfold UI.clickCourt. pose proof Hp as Hp0. unfold pending_ok in Hp0.
    destruct (UI.pendingShotAction ui) as [action|] eqn:Hpa;
      [|split; assumption].
    destruct (Window.truthy action); simpl; [|split; assumption].
    split; [exact I|]. apply processAction_located; [|exact H].
    split; [intros _; exact Hp0 | intros _; eexists; reflexivity].
  - split; [exact Hp|]. unfold Window.addPlayer.
    destruct (Window.truthy num && Window.truthy name); exact H.
  - split; [exact Hp|]. unfold Store.togglePlayerActive.
    destruct (Store.find d id) as [[i p]|]; exact H.
Qed.

(** X20. Through the action pad a ledger entry carries court coordinates
    exactly when its action is one of the four field-goal actions: a shot
    button only opens the court dialog, the click on the court records the
    pending shot with its position, and every other button records without
    one.  The ledger keeps that shape under any sequence of user events. *)
Theorem pad_entries_located (ui : UI.t) (d : Data.t) (evs : list UI.Event) :
  pending_ok ui -> Forall located (Data.log d) ->
  Forall located (Data.log (UI.play (ui, d) evs).2).
Proof.
  revert ui d. induction evs as [|ev evs IH]; intros ui d Hp H;
    [exact H|].
  change (UI.play (ui, d) (ev :: evs))
    with (UI.play (UI.handle (ui, d) ev) evs).
  destruct (handle_located ui d ev Hp H) as [Hp' H'].
  destruct (UI.handle (ui, d) ev) as [ui' d']. apply IH; assumption.
Qed.

Lemma pad_entries_located_witness :
  let evs := [UI.EvAddPlayer "7" "Ana" [] "p7";
              UI.EvSelectPlayer "p7";
              UI.EvClickAction 1 600 "fg3m";
              UI.EvClickCourt 2 598 50 10;
              UI.EvClickAction 3 590 "ast"] in
  (fun e => (LogEntry.action e, LogEntry.xy e))
    <$> Data.log (UI.play (UI.initial, Store.initialData) evs).2
  = [("fg3m", Some (Location.mk 50 10)); ("ast", None)] /\
  Forall located (Data.log (UI.play (UI.initial, Store.initialData) evs).2).
Proof.
  intros evs. split; [reflexivity|].
  apply (pad_entries_located UI.initial Store.initialData evs).
  - exact I.
  - constructor.
Defined.

(** A field goal recorded directly, without the court dialog, has no
    coordinates and is missing from the chart although it counts. *)
Example shot_without_location :
  let d := Store.addPlayer Store.initialData "p7" "7" "Ana" Home in
  let d' := (Store.recordAction d 1 600 "p7" "fg2m" None).1 in
  UI.shots d' Home = [] /\
  Player.stats <$> Data.players d'
  = [Stats.mk 2 1 1 0 0 0 0 0 0 0 0 0 0 0 0 0].
Proof. split; reflexivity. Qed.

(** * Start-up without a snapshot *)

(** X21. When nothing is stored under the key, or the empty string is,
    [init] starts a fresh empty session and saves it at once, so that the
    next start finds a snapshot. *)
Theorem init_fresh (st : Restore.Store) (parse : Restore.ParseOutcome)
    now iso :
  Restore.truthy (Restore.storage st) = false ->
  Restore.init st parse now iso =
    (Restore.mkStore (Restore.Session (Store.reset now iso))
       (Some (Restore.Stringified (Restore.Session (Store.reset now iso))))
       (Restore.console st), Normal) /\
  Restore.emptySession (Restore.data (Restore.init st parse now iso).1)
    = true /\
  Restore.truthy (Restore.storage (Restore.init st parse now iso).1) = true.
Proof.
  intros Ht. unfold Restore.init. rewrite Ht. repeat split.
Qed.

Lemma init_fresh_witness :
  Restore.data
    (Restore.init (Restore.startup (Some (Restore.Text "")))
       (Restore.Returns Restore.JNull) 7 "today").1
  = Restore.Session (Store.reset 7 "today").
Proof.
  destruct (init_fresh (Restore.startup (Some (Restore.Text "")))
              (Restore.Returns Restore.JNull) 7 "today" eq_refl)
    as (H & _ & _).
  rewrite H. reflexivity.
Defined.

(** * The range of the advanced metrics *)

Lemma reachable_session_stats d :
  reachable d -> Forall (fun p => session_stats (Player.stats p)) (Data.players d).
Proof.
  intros Hr.
  pose proof (reachable_ledger_bounds d Hr) as Hb.
  pose proof (reachable_inv makes_ok) as Hm.
  pose proof (reachable_inv points_ok) as Hp.
  specialize (Hm ltac:(unfold makes_ok; simpl; lia) updateStats_makes d Hr).
  specialize (Hp ltac:(unfold points_ok; simpl; lia) updateStats_points d Hr).
  unfold ledger_bounds, stats_inv in *.
  rewrite Forall_forall in *. intros p Hin.
  specialize (Hb p Hin). specialize (Hm p Hin). specialize (Hp p Hin).
  destruct Hb as (_ & Hf2m & _ & Hf3m & _ & Hftm & _).
  unfold session_stats.
  split; [apply Hf2m|]. split; [apply Hf3m|]. split; [apply Hftm|].
  split; assumption.
Qed.



(** * The layout of the report *)



Example report_short_tables :
  Report.generatePDF 100 200
  = Report.mk 60 false 110 false 185 false 210.
Proof. reflexivity. Qed.

Example report_long_home_table :
  Report.homeChartNewPage (Report.generatePDF 240 90) = true /\
  Report.homeChartY (Report.generatePDF 240 90) = 20%Q.
Proof. split; reflexivity. Qed.

(** * Switching the team on the action pad *)

(** X24. Choosing a team on the action pad clears the selected player, so
    that right afterwards neither an action button nor a click on the
    court records anything: the session data stay as they were until a
    player is selected again. *)
Theorem nothing_recorded_after_team_switch (ui : UI.t) (d : Data.t)
    (teamId : TeamId) now secs action x y :
  (UI.clickAction (UI.setActiveTeam ui teamId) d now secs action).2 = d /\
  (UI.clickCourt (UI.setActiveTeam ui teamId) d now secs x y).2 = d /\
  UI.truthy
    (UI.selectedPlayerId
       (UI.clickAction (UI.setActiveTeam ui teamId) d now secs action).1)
  = false.
Proof.
  unfold UI.clickAction, UI.clickCourt, UI.openShotModal, UI.processAction,
    UI.setActiveTeam. simpl.
  repeat split.
  - destruct (UI.isShot action); reflexivity.
  - destruct (UI.pendingShotAction ui) as [a|]; [|reflexivity].
    destruct (Window.truthy a); reflexivity.
  - destruct (UI.isShot action); reflexivity.
Qed.

Lemma shots_after_recordAction_witness :
  let d := Store.addPlayer Store.initialData "p7" "7" "Ana" Visitor in
  length (UI.shots
            (Store.recordAction d 1 600 "p7" "fg3a"
               (Some (Location.mk 50 10))).1 Visitor) = 1%nat /\
  UI.isMake "fg3a" = false.
Proof.
  intros d.
  destruct (shots_after_recordAction d 1 600 "p7" "fg3a"
              (Some (Location.mk 50 10)) Visitor) as [H1 H2].
  split.
  - rewrite H1. reflexivity.
  - destruct (UI.isMake "fg3a") eqn:Hm; [|reflexivity].
    destruct (proj1 (H2 eq_refl) eq_refl); discriminate.
Defined.
